(** * SecureHR frontend: a shallow embedding of the React components

    The development follows the TypeScript sources of the frontend:
    - [types/index.ts]                              -> [Module Types]
    - [services/api.ts]                             -> [Module Api]
    - [components/candidate/CVUpload.tsx]           -> [Module CVUpload]
    - [components/candidate/CandidateDashboard.tsx] -> [Module CandidateDashboard]
    - [components/candidate/CandidateLogin.tsx]     -> [Module CandidateLogin]
    - [components/candidate/CandidateRegister.tsx]  -> [Module CandidateRegister]
    - [components/recruiter/RecruiterRegister.tsx]  -> [Module RecruiterRegister]
    - [components/recruiter/SearchInterface.tsx]    -> [Module SearchInterface]
    - [components/recruiter/SearchResults.tsx]      -> [Module SearchResults]
    - [components/recruiter/RecruiterDashboard.tsx] -> [Module RecruiterDashboard]
    - [components/Router.tsx]                       -> [Module Router]

    The backend is not part of these sources; [Module SearchOrchestrator]
    models the search endpoint from its specification.

    Conventions.
    - A JavaScript string is the list of its UTF-16 code units ([Js.jsstring]);
      [Js.lit] turns an ASCII literal of the source into such a list.
    - Integral JavaScript numbers (file sizes, limits, slider positions) are [Z],
      and [option Z] where NaN can arise, [None] being NaN.
    - [similarity_score] is a rational [Q]: every finite double is a rational,
      and on finite doubles [<] and the sign of [a - b] agree with the exact
      comparison.  A product or a quotient the program computes is the exact
      result rounded to the nearest double ([Js.to_double]), with overflow to
      the infinities of [Js.number].  NaN is not represented.
    - A value of a union of string literals is a constructor of an inductive
      type, with the string it is at run time ([role_str], [status_str]).
    - A handler is a computation in the monad [Api.M]: it threads the
      component state and the browser world (localStorage, the trace of
      observable effects) and completes normally, by [return], or by [throw].
      The state a handler reads is the one of the render that created it and
      is passed as an argument; the state it writes is the monad's.  A handler
      runs to its end, awaits included, before the next event is handled. *)

From Stdlib Require Import List Bool Arith ZArith NArith QArith Qround Qpower Lia Lqa.
From Stdlib Require Import String Ascii.
From Stdlib Require Import Permutation Sorted.
Import ListNotations.

(* ================================================================== *)
(** * JavaScript strings and the built-ins the components call          *)
(* ================================================================== *)

Module Js.

Definition jsstring := list N.

(** An ASCII literal of the source as a list of code units. *)
Definition lit (s : string) : jsstring :=
  List.map N_of_ascii (list_ascii_of_string s).

(** The empty string. *)
Definition empty_str : jsstring := [].

(** [a === b] on strings. *)
Fixpoint str_eqb (a b : jsstring) : bool :=
  match a, b with
  | [], [] => true
  | x :: a', y :: b' => N.eqb x y && str_eqb a' b'
  | _, _ => false
  end.

(** Truthiness of a string: every string but [''] is truthy. *)
Definition truthy (s : jsstring) : bool :=
  match s with
  | [] => false
  | _ :: _ => true
  end.

(** [s || d] on strings. *)
Definition or_else (s d : jsstring) : jsstring :=
  if truthy s then s else d.

(** [o || d] where [o] may be [undefined]. *)
Definition opt_or_else (o : option jsstring) (d : jsstring) : jsstring :=
  match o with
  | Some s => or_else s d
  | None => d
  end.

(** [arr.includes(x)] on an array of strings. *)
Definition includes (arr : list jsstring) (x : jsstring) : bool :=
  existsb (str_eqb x) arr.

(** [arr.indexOf(x)]: the first index of [x], or -1. *)
Fixpoint indexOf_from (i : Z) (arr : list jsstring) (x : jsstring) : Z :=
  match arr with
  | [] => (-1)%Z
  | y :: arr' => if str_eqb y x then i else indexOf_from (i + 1)%Z arr' x
  end.

Definition indexOf (arr : list jsstring) (x : jsstring) : Z :=
  indexOf_from 0%Z arr x.

(** WhiteSpace and LineTerminator code units of ECMAScript, the ones
    [String.prototype.trim] strips: TAB, LF, VT, FF, CR, SP, NBSP, the Zs
    category of Unicode, LS, PS and ZWNBSP. *)
Definition is_ws (c : N) : bool :=
  ((9 <=? c) && (c <=? 13) || (c =? 32) || (c =? 160) || (c =? 5760)
   || (8192 <=? c) && (c <=? 8202) || (c =? 8232) || (c =? 8233)
   || (c =? 8239) || (c =? 8287) || (c =? 12288) || (c =? 65279))%N.

Fixpoint trimStart (s : jsstring) : jsstring :=
  match s with
  | [] => []
  | c :: s' => if is_ws c then trimStart s' else s
  end.

Definition trimEnd (s : jsstring) : jsstring :=
  rev (trimStart (rev s)).

Definition trim (s : jsstring) : jsstring :=
  trimEnd (trimStart s).

(** [s.substring(0, n)]. *)
Definition substring0 (n : nat) (s : jsstring) : jsstring := firstn n s.

(** Value of a digit in radix up to 36. *)
Definition digit_value (c : N) : option Z :=
  if ((48 <=? c) && (c <=? 57))%N then Some (Z.of_N (c - 48))
  else if ((97 <=? c) && (c <=? 122))%N then Some (Z.of_N (c - 97 + 10))
  else if ((65 <=? c) && (c <=? 90))%N then Some (Z.of_N (c - 65 + 10))
  else None.

(** The longest prefix of digits of the radix, read as a number; [acc] is
    [None] as long as no digit was read. *)
Fixpoint parse_digits (radix : Z) (acc : option Z) (s : jsstring) : option Z :=
  match s with
  | [] => acc
  | c :: s' =>
      match digit_value c with
      | Some d =>
          if (d <? radix)%Z
          then parse_digits radix
                 (Some (match acc with Some a => a * radix + d | None => d end)%Z) s'
          else acc
      | None => acc
      end
  end.

(** [parseInt(s)] without a radix argument: leading white space is skipped,
    a sign is read, a [0x] prefix selects radix 16.  [None] is NaN.  The
    result is the exact integer, which is the double that JavaScript returns
    as long as its magnitude is below 2^53. *)
Definition parseInt (s : jsstring) : option Z :=
  let s1 := trimStart s in
  let '(sign, s2) :=
    match s1 with
    | c :: r => if (c =? 45)%N then ((-1)%Z, r)
                else if (c =? 43)%N then (1%Z, r) else (1%Z, s1)
    | [] => (1%Z, s1)
    end in
  let '(radix, s3) :=
    match s2 with
    | c0 :: cx :: r =>
        if ((c0 =? 48) && ((cx =? 120) || (cx =? 88)))%N then (16%Z, r)
        else (10%Z, s2)
    | _ => (10%Z, s2)
    end in
  option_map (Z.mul sign) (parse_digits radix None s3).

(** [a < b] on strings: lexicographic on code units. *)
Fixpoint str_ltb (a b : jsstring) : bool :=
  match a, b with
  | _, [] => false
  | [], _ :: _ => true
  | x :: a', y :: b' => (x <? y)%N || ((x =? y)%N && str_ltb a' b')
  end.

Definition str_leb (a b : jsstring) : bool := negb (str_ltb b a).

(** [Math.round(x)]: the nearest integer, halves rounded up. *)
Definition Math_round (x : Q) : Z := Qfloor (x + (1 # 2)).

(** [arr.sort(compareFn)].  ECMAScript requires the sort to be stable, and
    with a consistent comparator the outcome is the one stable ordering,
    so any stable algorithm models it; this one inserts each element, from
    the last to the first, in front of the first element it does not have
    to follow.  [compareFn a b] is negative when [a] goes first. *)
Fixpoint sort_insert {A} (compareFn : A -> A -> Q) (x : A) (l : list A) : list A :=
  match l with
  | [] => [x]
  | y :: l' =>
      if Qle_bool (compareFn x y) 0 then x :: l
      else y :: sort_insert compareFn x l'
  end.

Definition Array_sort {A} (compareFn : A -> A -> Q) (arr : list A) : list A :=
  fold_right (sort_insert compareFn) [] arr.

(** ** Numbers

    A JavaScript number is an IEEE 754 double.  A finite double is a
    rational, so finite values are kept in [Q] and the arithmetic of the
    program is the exact operation followed by rounding to the nearest
    double, ties to the even significand.  NaN is not a value of [number];
    the sign of zero is not represented. *)

Definition pow2 (e : Z) : Q := Qpower 2 e.

(** The integer part of the binary logarithm of a positive rational. *)
Definition log2_floor (q : Q) : Z :=
  let k := (Z.log2 (Qnum q) - Z.log2 (Zpos (Qden q)))%Z in
  if Qle_bool (pow2 k) q then k else (k - 1)%Z.

(** The nearest integer, a tie going to the even one. *)
Definition round_half_even (x : Q) : Z :=
  let f := Qfloor x in
  match Qcompare (x - inject_Z f) (1 # 2) with
  | Lt => f
  | Gt => (f + 1)%Z
  | Eq => if Z.even f then f else (f + 1)%Z
  end.

(** The nearest multiple of the unit in the last place of a positive
    rational: 53 significant bits, and 2^-1074 as the smallest unit
    (subnormal numbers). *)
Definition nearest_pos (q : Q) : Q :=
  let e := Z.max (log2_floor q - 52) (-1074) in
  inject_Z (round_half_even (q / pow2 e)) * pow2 e.

(** Rounding to 53 bits, before the test for overflow.  It is also the
    value of a decimal literal: [0.8] in the source is [nearest (8 # 10)]. *)
Definition nearest (q : Q) : Q :=
  match Qnum q with
  | Z0 => 0
  | Zpos _ => nearest_pos q
  | Zneg _ => - nearest_pos (- q)
  end.

(** [Number.MAX_VALUE] *)
Definition max_double : Q := inject_Z (2 ^ 53 - 1) * pow2 971.

Inductive number :=
| Finite (q : Q)
| Infinity
| NegInfinity.

(** The double an exact result is rounded to. *)
Definition to_double (q : Q) : number :=
  let r := nearest q in
  if Qle_bool r max_double
  then if Qle_bool (- max_double) r then Finite r else NegInfinity
  else Infinity.

(** [a * b] and [a / b] on finite doubles, [b] not zero. *)
Definition js_mul (a b : Q) : number := to_double (a * b).
Definition js_div (a b : Q) : number := to_double (a / b).

(** [x < t] for a finite [x]. *)
Definition js_lt (x : Q) (t : number) : bool :=
  match t with
  | Finite q => negb (Qle_bool q x)
  | Infinity => true
  | NegInfinity => false
  end.

(** [Math.round] on a number. *)
Definition Math_round_number (x : number) : number :=
  match x with
  | Finite q => Finite (inject_Z (Math_round q))
  | Infinity => Infinity
  | NegInfinity => NegInfinity
  end.

End Js.

(* ================================================================== *)
(** * types/index.ts                                                    *)
(* ================================================================== *)

Module Types.
Import Js.

(** ['candidate' | 'recruiter'] *)
Inductive Role := candidate | recruiter.

Definition role_str (r : Role) : jsstring :=
  match r with
  | candidate => lit "candidate"
  | recruiter => lit "recruiter"
  end.

Record User := {
  id : jsstring;
  email : jsstring;
  role : Role;
  created_at : jsstring;
  last_login_at : option jsstring;
  is_active : bool
}.

(** The union type of [Candidate.cv_processing_status]:
    ['pending' | 'completed' | 'failed']. *)
Inductive CvProcessingStatus := pending | completed | failed.

Definition status_str (s : CvProcessingStatus) : jsstring :=
  match s with
  | pending => lit "pending"
  | completed => lit "completed"
  | failed => lit "failed"
  end.

(** [Candidate extends User], with [role: 'candidate']. *)
Record Candidate := {
  c_user : User;
  first_name : jsstring;
  last_name : jsstring;
  cv_uploaded_at : option jsstring;
  cv_processing_status : CvProcessingStatus;
  vector_id : option jsstring;
  cv_filename : option jsstring
}.

Record Recruiter := {
  r_user : User;
  company_name : jsstring;
  job_title : jsstring
}.

Record AuthResponse := {
  access_token : jsstring;
  token_type : jsstring;
  expires_in : Z;
  user_id : jsstring;
  user_role : Role
}.

Record SearchResult := {
  candidate_id : jsstring;
  similarity_score : Q;
  sr_first_name : option jsstring;
  sr_last_name : option jsstring;
  sr_email : option jsstring;
  matched_skills : option (list jsstring);
  experience_level : option jsstring
}.

(** [filters?: Record<string, any>]: the object as the list of its own
    properties in insertion order; a property may hold [undefined]. *)
Definition Filters := list (jsstring * option jsstring).

(** [limit?: number]; [Some None] is NaN, [None] an absent property. *)
Record SearchRequest := {
  requirements : jsstring;
  filters : option Filters;
  limit : option (option Z)
}.

Record SearchResponse := {
  results : list SearchResult;
  total_results : Z;
  query_processed : jsstring;
  search_time_ms : option Z
}.

Record ApiError := {
  detail : jsstring;
  status_code : Z
}.

End Types.

(* ================================================================== *)
(** * services/api.ts and the handler monad                             *)
(* ================================================================== *)

Module Api.
Import Js Types.

(** The DOM [File] as far as the components read it. *)
Record File := {
  name : jsstring;
  type : jsstring;
  size : Z
}.

Record CandidateCVResponse := {
  cv_candidate_id : jsstring;
  cv_content : jsstring;
  metadata : Filters
}.

(** What a rejected axios promise carries: [err.response] is absent when
    the server was not reached, and [err.response.data.detail] may be. *)
Record ErrorResponse := {
  status : Z;
  data_detail : option jsstring
}.

Record AxiosError := {
  response : option ErrorResponse
}.

Inductive api_result (A : Type) :=
| Resolved (data : A)
| Rejected (err : AxiosError).
Arguments Resolved {A} data.
Arguments Rejected {A} err.

(** The endpoints of [authApi], [candidateApi] and [recruiterApi]. *)
Inductive request :=
| POST_auth_login (email password : jsstring)
| POST_auth_register_candidate (email password first_name last_name : jsstring)
| POST_auth_register_recruiter (email password company_name job_title : jsstring)
| POST_auth_logout
| GET_auth_me
| GET_profile_me
| POST_cv_upload (file : File)
| DELETE_profile_me
| GET_profile_recruiter_me
| POST_search_candidates (searchRequest : SearchRequest)
| GET_search_candidates_cv (candidateId : jsstring)
| POST_search_saved (name : jsstring) (criteria : SearchRequest)
| GET_search_saved.

(** Effects a handler has on its environment, in the order they happen. *)
Inductive effect :=
| Request (r : request) (authorization : option jsstring)
| Redirect (href : jsstring)
| AuthContext_login (token : jsstring) (user : User)
| Callback_onSuccess
| Callback_onUploadSuccess
| Callback_onSearchResults (results : list SearchResult) (criteria : SearchRequest)
| Console_log
| FileInput_clear
| Alert (msg : jsstring)
| PreventDefault.

Record LocalStorage := {
  ls_access_token : option jsstring;
  ls_user : option jsstring
}.

Record World := {
  localStorage : LocalStorage;
  trace : list effect
}.

Definition emit (e : effect) (w : World) : World :=
  {| localStorage := localStorage w; trace := trace w ++ [e] |}.

(** The backend as the handlers see it: what each call resolves or rejects
    with.  [uploadCV] also gives the progress values handed to [onProgress]. *)
Record Server := {
  login : jsstring -> jsstring -> api_result AuthResponse;
  registerCandidate : jsstring -> jsstring -> jsstring -> jsstring -> api_result AuthResponse;
  registerRecruiter : jsstring -> jsstring -> jsstring -> jsstring -> api_result AuthResponse;
  getCurrentUser : option jsstring -> api_result User;
  uploadCV : File -> list (Z * Z) * api_result jsstring;
  search : SearchRequest -> api_result SearchResponse;
  getCandidateCV : jsstring -> api_result CandidateCVResponse;
  saveSearch : jsstring -> SearchRequest -> api_result jsstring
}.

(** How a block of statements completes. *)
Inductive completion (A : Type) :=
| Normal (a : A)
| Return
| Throw (e : AxiosError).
Arguments Normal {A} a.
Arguments Return {A}.
Arguments Throw {A} e.

(** A handler body over component state [S]. *)
Definition M (S A : Type) := S -> World -> completion A * S * World.

Definition ret {S A} (a : A) : M S A := fun s w => (Normal a, s, w).

Definition bind {S A B} (c : M S A) (k : A -> M S B) : M S B :=
  fun s w =>
    match c s w with
    | (Normal a, s', w') => k a s' w'
    | (Return, s', w') => (Return, s', w')
    | (Throw e, s', w') => (Throw e, s', w')
    end.

(** [return;] *)
Definition return_ {S A} : M S A := fun s w => (Return, s, w).

(** A state setter of [useState], with a value or with [prev => ...]. *)
Definition setState {S} (f : S -> S) : M S unit := fun s w => (Normal tt, f s, w).

Definition perform {S} (e : effect) : M S unit := fun s w => (Normal tt, s, emit e w).

Definition getWorld {S} : M S World := fun s w => (Normal w, s, w).

(** [localStorage.setItem('access_token', v)] *)
Definition localStorage_set_access_token {S} (v : jsstring) : M S unit :=
  fun s w =>
    (Normal tt, s,
     {| localStorage := {| ls_access_token := Some v;
                           ls_user := ls_user (localStorage w) |};
        trace := trace w |}).

(** The request interceptor: the header is set when the stored token is
    truthy. *)
Definition bearer (w : World) : option jsstring :=
  match ls_access_token (localStorage w) with
  | Some t => if truthy t then Some t else None
  | None => None
  end.

(** The response interceptor: on status 401 both items are removed and the
    page is redirected; the error is rejected again in every case. *)
Definition on_rejected (err : AxiosError) (w : World) : World :=
  match response err with
  | Some r =>
      if (status r =? 401)%Z
      then emit (Redirect (lit "/login"))
             {| localStorage := {| ls_access_token := None; ls_user := None |};
                trace := trace w |}
      else w
  | None => w
  end.

(** [await api.<verb>(...)]: the request leaves with the bearer token of
    the moment, and the answer resolves or throws. *)
Definition await {S A} (r : request) (answer : api_result A) : M S A :=
  fun s w =>
    let w1 := emit (Request r (bearer w)) w in
    match answer with
    | Resolved a => (Normal a, s, w1)
    | Rejected err => (Throw err, s, on_rejected err w1)
    end.

(** [await] of a call that reports back before it settles: [during] is
    what the callbacks do to the component state in the meantime. *)
Definition await_reporting {S A} (r : request) (during : S -> S)
  (answer : api_result A) : M S A :=
  fun s w => await r answer (during s) w.

(** [try { body } catch (err) { handler } finally { fin }] *)
Definition try_catch_finally {S A}
  (body : M S A) (handler : AxiosError -> M S A) (fin : M S unit) : M S A :=
  fun s w =>
    let '(c1, s1, w1) :=
      match body s w with
      | (Throw e, s', w') => handler e s' w'
      | other => other
      end in
    match fin s1 w1 with
    | (Normal _, s2, w2) => (c1, s2, w2)
    | (Return, s2, w2) => (Return, s2, w2)
    | (Throw e, s2, w2) => (Throw e, s2, w2)
    end.

(** [try { body } catch (err) { handler }] *)
Definition try_catch {S A} (body : M S A) (handler : AxiosError -> M S A) : M S A :=
  try_catch_finally body handler (ret tt).

(** [(err.response?.data as ApiError)?.detail || fallback] *)
Definition detail_or (err : AxiosError) (fallback : jsstring) : jsstring :=
  match response err with
  | Some r => opt_or_else (data_detail r) fallback
  | None => fallback
  end.

(** Running a handler that was created in the render with state [s]:
    the state and world it leaves behind. *)
Definition run {S A} (h : M S A) (s : S) (w : World) : S * World :=
  let '(_, s', w') := h s w in (s', w').

Definition requests (w : World) : list request :=
  flat_map (fun e => match e with Request r _ => [r] | _ => [] end) (trace w).

End Api.

Declare Scope handler_scope.
Delimit Scope handler_scope with handler.
Notation "x <- c ;; k" := (Api.bind c (fun x => k))
  (at level 61, c at next level, right associativity) : handler_scope.
Notation "c ;; k" := (Api.bind c (fun _ => k))
  (at level 61, right associativity) : handler_scope.

(** [if (c) { body }] as a statement. *)
Definition when {S} (c : bool) (body : Api.M S unit) : Api.M S unit :=
  if c then body else Api.ret tt.

(* ================================================================== *)
(** * components/candidate/CVUpload.tsx                                 *)
(* ================================================================== *)

Module CVUpload.
Import Js Types Api.
Local Open Scope handler_scope.
Local Open Scope Z_scope.

Record State := {
  selectedFile : option File;
  uploading : bool;
  uploadProgress : Z;
  error : jsstring;
  success : jsstring
}.

Definition initial : State :=
  {| selectedFile := None; uploading := false; uploadProgress := 0;
     error := empty_str; success := empty_str |}.

Definition with_selectedFile (v : option File) (s : State) : State :=
  {| selectedFile := v; uploading := uploading s;
     uploadProgress := uploadProgress s; error := error s; success := success s |}.

Definition with_uploading (v : bool) (s : State) : State :=
  {| selectedFile := selectedFile s; uploading := v;
     uploadProgress := uploadProgress s; error := error s; success := success s |}.

Definition with_uploadProgress (v : Z) (s : State) : State :=
  {| selectedFile := selectedFile s; uploading := uploading s;
     uploadProgress := v; error := error s; success := success s |}.

Definition with_error (v : jsstring) (s : State) : State :=
  {| selectedFile := selectedFile s; uploading := uploading s;
     uploadProgress := uploadProgress s; error := v; success := success s |}.

Definition with_success (v : jsstring) (s : State) : State :=
  {| selectedFile := selectedFile s; uploading := uploading s;
     uploadProgress := uploadProgress s; error := error s; success := v |}.

Definition setSelectedFile v : M State unit := setState (with_selectedFile v).
Definition setUploading v : M State unit := setState (with_uploading v).
Definition setUploadProgress v : M State unit := setState (with_uploadProgress v).
Definition setError v : M State unit := setState (with_error v).
Definition setSuccess v : M State unit := setState (with_success v).

Definition allowedTypes : list jsstring :=
  [ lit "application/pdf";
    lit "application/msword";
    lit "application/vnd.openxmlformats-officedocument.wordprocessingml.document" ].

Definition maxFileSize : Z := 10 * 1024 * 1024.

(** [file] is [e.target.files?.[0]]. *)
Definition handleFileSelect (file : option File) : M State unit :=
  setError empty_str ;;
  setSuccess empty_str ;;
  match file with
  | None => setSelectedFile None ;; return_
  | Some file =>
      when (negb (includes allowedTypes (type file)))
        (setError (lit "Please select a PDF, DOC, or DOCX file") ;;
         setSelectedFile None ;;
         return_) ;;
      when (size file >? maxFileSize)
        (setError (lit "File size must be less than 10MB") ;;
         setSelectedFile None ;;
         return_) ;;
      setSelectedFile (Some file)
  end.

(** [Math.round((progressEvent.loaded * 100) / progressEvent.total)]: the
    product and the quotient are rounded to doubles.  [loaded] and [total]
    are byte counts, integers far below the range of a double. *)
Definition progress_of (loaded total : Z) : Z :=
  Math_round (nearest (nearest (inject_Z (loaded * 100)) / inject_Z total)).

(** The [onUploadProgress] wrapper of [candidateApi.uploadCV] with the
    component's callback [setUploadProgress]: an event whose [total] is
    falsy is skipped. *)
Fixpoint onUploadProgress (events : list (Z * Z)) (s : State) : State :=
  match events with
  | [] => s
  | (loaded, total) :: rest =>
      onUploadProgress rest
        (if total =? 0 then s
         else with_uploadProgress (progress_of loaded total) s)
  end.

(** [candidateApi.uploadCV(file, onProgress)] *)
Definition candidateApi_uploadCV (server : Server) (file : File) : M State jsstring :=
  let '(events, answer) := uploadCV server file in
  await_reporting (POST_cv_upload file) (onUploadProgress events) answer.

(** [st] is the state of the render that created the handler. *)
Definition handleUpload (server : Server) (st : State) : M State unit :=
  match selectedFile st with
  | None => setError (lit "Please select a file to upload") ;; return_
  | Some file =>
      setUploading true ;;
      setUploadProgress 0 ;;
      setError empty_str ;;
      setSuccess empty_str ;;
      try_catch_finally
        (_ <- candidateApi_uploadCV server file ;;
         setSuccess (lit "CV processed successfully!") ;;
         setSelectedFile None ;;
         perform FileInput_clear ;;
         perform Callback_onUploadSuccess)
        (fun err =>
           setError (detail_or err (lit "Upload failed. Please try again.")))
        (setUploading false ;;
         setUploadProgress 0)
  end.

(** [files] is [e.dataTransfer.files]. *)
Definition handleDrop (files : list File) : M State unit :=
  perform PreventDefault ;;
  match files with
  | file :: _ => handleFileSelect (Some file)
  | [] => ret tt
  end.

(** The [onClick] of the Cancel button. *)
Definition handleCancel : M State unit :=
  setSelectedFile None ;;
  perform FileInput_clear.

(** What the user and the page can do to the component. *)
Inductive event :=
| FileSelect (file : option File)
| Drop (files : list File)
| Upload (server : Server)
| Cancel.

Definition step (sw : State * World) (e : event) : State * World :=
  let '(s, w) := sw in
  match e with
  | FileSelect file => run (handleFileSelect file) s w
  | Drop files => run (handleDrop files) s w
  | Upload server => run (handleUpload server s) s w
  | Cancel => run handleCancel s w
  end.

Definition steps (sw : State * World) (es : list event) : State * World :=
  fold_left step es sw.

(** The upload contract: MIME type in the allow-list, at most 10 MiB. *)
Definition acceptable (f : File) : Prop :=
  In (type f) allowedTypes /\ size f <= 10 * 1024 * 1024.

(** Every upload request sent so far carries an acceptable file. *)
Definition uploads_acceptable (w : World) : Prop :=
  Forall (fun r => match r with POST_cv_upload f => acceptable f | _ => True end)
         (requests w).

(** The selected file, if there is one, is acceptable. *)
Definition selection_acceptable (s : State) : Prop :=
  forall f, selectedFile s = Some f -> acceptable f.

End CVUpload.

(* ================================================================== *)
(** * components/candidate/CandidateDashboard.tsx                       *)
(* ================================================================== *)

Module CandidateDashboard.
Import Js Types Api.

Definition getStatusColor (status : jsstring) : jsstring :=
  if str_eqb status (lit "completed") then lit "green"
  else if str_eqb status (lit "processing") then lit "orange"
  else if str_eqb status (lit "failed") then lit "red"
  else lit "gray".

Definition getStatusText (status : jsstring) : jsstring :=
  if str_eqb status (lit "completed") then lit "CV Processed Successfully"
  else if str_eqb status (lit "processing") then lit "Processing CV..."
  else if str_eqb status (lit "failed") then lit "Processing Failed"
  else lit "No CV Uploaded".

(** [profile?.cv_processing_status || 'none'] *)
Definition shown_status (profile : option Candidate) : jsstring :=
  match profile with
  | Some p => or_else (status_str (cv_processing_status p)) (lit "none")
  | None => lit "none"
  end.

(** The five status values of the data model. *)
Definition status_values : list jsstring :=
  [ lit "none"; lit "pending"; lit "processing"; lit "completed"; lit "failed" ].

(** A string is a value of the type of [Candidate.cv_processing_status]. *)
Definition admits (v : jsstring) : Prop :=
  exists s : CvProcessingStatus, status_str s = v.

Local Open Scope handler_scope.

Record State := {
  profile : option Candidate;
  loading : bool;
  error : jsstring;
  showDeleteConfirm : bool;
  deleting : bool
}.

Definition initial : State :=
  {| profile := None; loading := true; error := empty_str;
     showDeleteConfirm := false; deleting := false |}.

Definition with_profile v (s : State) : State :=
  {| profile := v; loading := loading s; error := error s;
     showDeleteConfirm := showDeleteConfirm s; deleting := deleting s |}.
Definition with_loading v (s : State) : State :=
  {| profile := profile s; loading := v; error := error s;
     showDeleteConfirm := showDeleteConfirm s; deleting := deleting s |}.
Definition with_error v (s : State) : State :=
  {| profile := profile s; loading := loading s; error := v;
     showDeleteConfirm := showDeleteConfirm s; deleting := deleting s |}.
Definition with_showDeleteConfirm v (s : State) : State :=
  {| profile := profile s; loading := loading s; error := error s;
     showDeleteConfirm := v; deleting := deleting s |}.
Definition with_deleting v (s : State) : State :=
  {| profile := profile s; loading := loading s; error := error s;
     showDeleteConfirm := showDeleteConfirm s; deleting := v |}.

Definition setProfile v : M State unit := setState (with_profile v).
Definition setLoading v : M State unit := setState (with_loading v).
Definition setError v : M State unit := setState (with_error v).
Definition setShowDeleteConfirm v : M State unit := setState (with_showDeleteConfirm v).
Definition setDeleting v : M State unit := setState (with_deleting v).

(** [answer] is what [candidateApi.getProfile()] settles with. *)
Definition loadProfile (answer : api_result Candidate) : M State unit :=
  try_catch_finally
    (response <- await GET_profile_me answer ;;
     setProfile (Some response))
    (fun err => setError (detail_or err (lit "Failed to load profile")))
    (setLoading false).

(** [answer] is what [candidateApi.deleteProfile()] settles with; [logout]
    is the function of the auth context. *)
Definition handleDeleteProfile (answer : api_result jsstring) (logout : M State unit)
  : M State unit :=
  setDeleting true ;;
  try_catch
    (_ <- await DELETE_profile_me answer ;;
     logout)
    (fun err =>
       setError (detail_or err (lit "Failed to delete profile")) ;;
       setDeleting false ;;
       setShowDeleteConfirm false).

End CandidateDashboard.

(* ================================================================== *)
(** * components/candidate/CandidateLogin.tsx                           *)
(* ================================================================== *)

(** [authApi.getCurrentUser()]: the answer depends on the token the
    request interceptor attaches. *)
Definition authApi_getCurrentUser {S} (server : Api.Server) : Api.M S Types.User :=
  Api.bind Api.getWorld (fun w =>
    Api.await Api.GET_auth_me (Api.getCurrentUser server (Api.bearer w))).

Module CandidateLogin.
Import Js Types Api.
Local Open Scope handler_scope.

Record FormData := {
  email : jsstring;
  password : jsstring
}.

Record State := {
  formData : FormData;
  loading : bool;
  error : jsstring
}.

Definition initial : State :=
  {| formData := {| email := empty_str; password := empty_str |};
     loading := false; error := empty_str |}.

Definition with_formData v (s : State) : State :=
  {| formData := v; loading := loading s; error := error s |}.
Definition with_loading v (s : State) : State :=
  {| formData := formData s; loading := v; error := error s |}.
Definition with_error v (s : State) : State :=
  {| formData := formData s; loading := loading s; error := v |}.

Definition setFormData v : M State unit := setState (with_formData v).
Definition setLoading v : M State unit := setState (with_loading v).
Definition setError v : M State unit := setState (with_error v).

(** [{...formData, [name]: value}] for the two inputs of the form. *)
Definition assign (f : FormData) (name value : jsstring) : FormData :=
  if str_eqb name (lit "email") then {| email := value; password := password f |}
  else if str_eqb name (lit "password") then {| email := email f; password := value |}
  else f.

Definition handleChange (name value : jsstring) (st : State) : M State unit :=
  setFormData (assign (formData st) name value) ;;
  setError empty_str.

Definition handleSubmit (server : Server) (st : State) : M State unit :=
  perform PreventDefault ;;
  setLoading true ;;
  setError empty_str ;;
  try_catch_finally
    (response <- await (POST_auth_login (email (formData st)) (password (formData st)))
                   (login server (email (formData st)) (password (formData st))) ;;
     when (negb (str_eqb (role_str (user_role response)) (lit "candidate")))
       (setError (lit "Invalid credentials for candidate login") ;;
        return_) ;;
     localStorage_set_access_token (access_token response) ;;
     userResponse <- authApi_getCurrentUser server ;;
     perform (AuthContext_login (access_token response) userResponse) ;;
     perform Callback_onSuccess)
    (fun err =>
       perform Console_log ;;
       setError (detail_or err (lit "Login failed. Please check your credentials.")))
    (setLoading false).

End CandidateLogin.

(* ================================================================== *)
(** * components/candidate/CandidateRegister.tsx                        *)
(* ================================================================== *)

Module CandidateRegister.
Import Js Types Api.
Local Open Scope handler_scope.

Record FormData := {
  email : jsstring;
  password : jsstring;
  confirmPassword : jsstring;
  first_name : jsstring;
  last_name : jsstring
}.

Record State := {
  formData : FormData;
  loading : bool;
  error : jsstring
}.

Definition initial : State :=
  {| formData := {| email := empty_str; password := empty_str; confirmPassword := empty_str;
                    first_name := empty_str; last_name := empty_str |};
     loading := false; error := empty_str |}.

Definition with_formData v (s : State) : State :=
  {| formData := v; loading := loading s; error := error s |}.
Definition with_loading v (s : State) : State :=
  {| formData := formData s; loading := v; error := error s |}.
Definition with_error v (s : State) : State :=
  {| formData := formData s; loading := loading s; error := v |}.

Definition setFormData v : M State unit := setState (with_formData v).
Definition setLoading v : M State unit := setState (with_loading v).
Definition setError v : M State unit := setState (with_error v).

Definition assign (f : FormData) (name value : jsstring) : FormData :=
  if str_eqb name (lit "email") then
    {| email := value; password := password f; confirmPassword := confirmPassword f;
       first_name := first_name f; last_name := last_name f |}
  else if str_eqb name (lit "password") then
    {| email := email f; password := value; confirmPassword := confirmPassword f;
       first_name := first_name f; last_name := last_name f |}
  else if str_eqb name (lit "confirmPassword") then
    {| email := email f; password := password f; confirmPassword := value;
       first_name := first_name f; last_name := last_name f |}
  else if str_eqb name (lit "first_name") then
    {| email := email f; password := password f; confirmPassword := confirmPassword f;
       first_name := value; last_name := last_name f |}
  else if str_eqb name (lit "last_name") then
    {| email := email f; password := password f; confirmPassword := confirmPassword f;
       first_name := first_name f; last_name := value |}
  else f.

Definition handleChange (name value : jsstring) (st : State) : M State unit :=
  setFormData (assign (formData st) name value) ;;
  setError empty_str.

Definition handleSubmit (server : Server) (st : State) : M State unit :=
  let f := formData st in
  perform PreventDefault ;;
  when (negb (str_eqb (password f) (confirmPassword f)))
    (setError (lit "Passwords do not match") ;;
     return_) ;;
  when (List.length (password f) <? 8)%nat
    (setError (lit "Password must be at least 8 characters long") ;;
     return_) ;;
  setLoading true ;;
  setError empty_str ;;
  try_catch_finally
    (response <- await (POST_auth_register_candidate
                          (email f) (password f) (first_name f) (last_name f))
                   (registerCandidate server
                      (email f) (password f) (first_name f) (last_name f)) ;;
     localStorage_set_access_token (access_token response) ;;
     userResponse <- authApi_getCurrentUser server ;;
     perform (AuthContext_login (access_token response) userResponse) ;;
     perform Callback_onSuccess)
    (fun err =>
       setError (detail_or err (lit "Registration failed. Please try again.")))
    (setLoading false).

(** The form may be submitted: the password equals its confirmation and
    has at least 8 code units. *)
Definition valid (f : FormData) : Prop :=
  password f = confirmPassword f /\ (8 <= List.length (password f))%nat.

End CandidateRegister.

(* ================================================================== *)
(** * components/recruiter/RecruiterRegister.tsx                        *)
(* ================================================================== *)

Module RecruiterRegister.
Import Js Types Api.
Local Open Scope handler_scope.

Record FormData := {
  email : jsstring;
  password : jsstring;
  confirmPassword : jsstring;
  company_name : jsstring;
  job_title : jsstring
}.

Record State := {
  formData : FormData;
  loading : bool;
  error : jsstring
}.

Definition initial : State :=
  {| formData := {| email := empty_str; password := empty_str; confirmPassword := empty_str;
                    company_name := empty_str; job_title := empty_str |};
     loading := false; error := empty_str |}.

Definition with_formData v (s : State) : State :=
  {| formData := v; loading := loading s; error := error s |}.
Definition with_loading v (s : State) : State :=
  {| formData := formData s; loading := v; error := error s |}.
Definition with_error v (s : State) : State :=
  {| formData := formData s; loading := loading s; error := v |}.

Definition setFormData v : M State unit := setState (with_formData v).
Definition setLoading v : M State unit := setState (with_loading v).
Definition setError v : M State unit := setState (with_error v).

Definition assign (f : FormData) (name value : jsstring) : FormData :=
  if str_eqb name (lit "email") then
    {| email := value; password := password f; confirmPassword := confirmPassword f;
       company_name := company_name f; job_title := job_title f |}
  else if str_eqb name (lit "password") then
    {| email := email f; password := value; confirmPassword := confirmPassword f;
       company_name := company_name f; job_title := job_title f |}
  else if str_eqb name (lit "confirmPassword") then
    {| email := email f; password := password f; confirmPassword := value;
       company_name := company_name f; job_title := job_title f |}
  else if str_eqb name (lit "company_name") then
    {| email := email f; password := password f; confirmPassword := confirmPassword f;
       company_name := value; job_title := job_title f |}
  else if str_eqb name (lit "job_title") then
    {| email := email f; password := password f; confirmPassword := confirmPassword f;
       company_name := company_name f; job_title := value |}
  else f.

Definition handleChange (name value : jsstring) (st : State) : M State unit :=
  setFormData (assign (formData st) name value) ;;
  setError empty_str.

Definition handleSubmit (server : Server) (st : State) : M State unit :=
  let f := formData st in
  perform PreventDefault ;;
  when (negb (str_eqb (password f) (confirmPassword f)))
    (setError (lit "Passwords do not match") ;;
     return_) ;;
  when (List.length (password f) <? 8)%nat
    (setError (lit "Password must be at least 8 characters long") ;;
     return_) ;;
  setLoading true ;;
  setError empty_str ;;
  try_catch_finally
    (response <- await (POST_auth_register_recruiter
                          (email f) (password f) (company_name f) (job_title f))
                   (registerRecruiter server
                      (email f) (password f) (company_name f) (job_title f)) ;;
     localStorage_set_access_token (access_token response) ;;
     userResponse <- authApi_getCurrentUser server ;;
     perform (AuthContext_login (access_token response) userResponse) ;;
     perform Callback_onSuccess)
    (fun err =>
       setError (detail_or err (lit "Registration failed. Please try again.")))
    (setLoading false).

(** The form may be submitted: the password equals its confirmation and
    has at least 8 code units. *)
Definition valid (f : FormData) : Prop :=
  password f = confirmPassword f /\ (8 <= List.length (password f))%nat.

End RecruiterRegister.

(* ================================================================== *)
(** * components/recruiter/SearchInterface.tsx                          *)
(* ================================================================== *)

Module SearchInterface.
Import Js Types Api.
Local Open Scope handler_scope.

Record State := {
  searchData : SearchRequest;
  searching : bool;
  error : jsstring;
  showAdvanced : bool
}.

Definition initial : State :=
  {| searchData := {| requirements := empty_str; filters := Some [];
                      limit := Some (Some 10%Z) |};
     searching := false; error := empty_str; showAdvanced := false |}.

Definition with_searchData v (s : State) : State :=
  {| searchData := v; searching := searching s; error := error s;
     showAdvanced := showAdvanced s |}.
Definition with_searching v (s : State) : State :=
  {| searchData := searchData s; searching := v; error := error s;
     showAdvanced := showAdvanced s |}.
Definition with_error v (s : State) : State :=
  {| searchData := searchData s; searching := searching s; error := v;
     showAdvanced := showAdvanced s |}.
Definition with_showAdvanced v (s : State) : State :=
  {| searchData := searchData s; searching := searching s; error := error s;
     showAdvanced := v |}.

Definition setSearchData v : M State unit := setState (with_searchData v).
Definition setSearching v : M State unit := setState (with_searching v).
Definition setError v : M State unit := setState (with_error v).
Definition setShowAdvanced v : M State unit := setState (with_showAdvanced v).

(** [{...o, [key]: v}]: an own property keeps its place, a new one is
    added last. *)
Fixpoint assign (o : Filters) (key : jsstring) (v : option jsstring) : Filters :=
  match o with
  | [] => [(key, v)]
  | (k, x) :: o' =>
      if str_eqb k key then (k, v) :: o' else (k, x) :: assign o' key v
  end.

Definition handleRequirementsChange (value : jsstring) (st : State) : M State unit :=
  setSearchData {| requirements := value;
                   filters := filters (searchData st);
                   limit := limit (searchData st) |} ;;
  setError empty_str.

Definition handleFilterChange (filterKey value : jsstring) (st : State) : M State unit :=
  setSearchData
    {| requirements := requirements (searchData st);
       filters := Some (assign (match filters (searchData st) with
                                | Some o => o
                                | None => []
                                end)
                          filterKey (if truthy value then Some value else None));
       limit := limit (searchData st) |}.

(** [value] is [e.target.value] of the select. *)
Definition handleLimitChange (value : jsstring) (st : State) : M State unit :=
  setSearchData {| requirements := requirements (searchData st);
                   filters := filters (searchData st);
                   limit := Some (parseInt value) |}.

Definition handleSearch (server : Server) (st : State) : M State unit :=
  perform PreventDefault ;;
  when (negb (truthy (trim (requirements (searchData st)))))
    (setError (lit "Please enter job requirements") ;;
     return_) ;;
  setSearching true ;;
  setError empty_str ;;
  try_catch_finally
    (response <- await (POST_search_candidates (searchData st))
                   (search server (searchData st)) ;;
     perform (Callback_onSearchResults (results response) (searchData st)))
    (fun err =>
       setError (detail_or err (lit "Search failed. Please try again.")))
    (setSearching false).

(** [name] is what [prompt] returned, [None] for [null]. *)
Definition handleSaveSearch (name : option jsstring) (server : Server) (st : State)
  : M State unit :=
  match name with
  | None => return_
  | Some name =>
      when (negb (truthy name)) return_ ;;
      try_catch
        (_ <- await (POST_search_saved name (searchData st))
                (saveSearch server name (searchData st)) ;;
         perform (Alert (lit "Search saved successfully!")))
        (fun err => setError (detail_or err (lit "Failed to save search")))
  end.

(** The [value] attributes of the options of the limit select, as the DOM
    holds them. *)
Definition limit_options : list jsstring :=
  [ lit "3"; lit "5"; lit "10"; lit "15"; lit "20";
    lit "25"; lit "30"; lit "40"; lit "50" ].

Inductive event :=
| RequirementsChange (value : jsstring)
| FilterChange (filterKey value : jsstring)
| LimitChange (value : jsstring)
| ToggleAdvanced
| Search (server : Server)
| SaveSearch (name : option jsstring) (server : Server).

(** A change event of the select carries the value of one of its options. *)
Definition from_page (e : event) : Prop :=
  match e with
  | LimitChange value => In value limit_options
  | _ => True
  end.

Definition step (sw : State * World) (e : event) : State * World :=
  let '(s, w) := sw in
  match e with
  | RequirementsChange value => run (handleRequirementsChange value s) s w
  | FilterChange filterKey value => run (handleFilterChange filterKey value s) s w
  | LimitChange value => run (handleLimitChange value s) s w
  | ToggleAdvanced => run (setShowAdvanced (negb (showAdvanced s))) s w
  | Search server => run (handleSearch server s) s w
  | SaveSearch name server => run (handleSaveSearch name server s) s w
  end.

Definition steps (sw : State * World) (es : list event) : State * World :=
  fold_left step es sw.

(** The limits the select offers. *)
Definition selectable : list Z := [3; 5; 10; 15; 20; 25; 30; 40; 50]%Z.

Definition limit_selectable (q : SearchRequest) : Prop :=
  exists L : Z, limit q = Some (Some L) /\ In L selectable /\ (1 <= L <= 50)%Z.

(** The search requests (run or saved) among the requests sent so far. *)
Definition criteria_sent (w : World) : list SearchRequest :=
  flat_map (fun r => match r with
                     | POST_search_candidates q => [q]
                     | POST_search_saved _ q => [q]
                     | _ => []
                     end) (requests w).

(** [o[key]]: the value of the property, [undefined] when there is none. *)
Definition get (o : Filters) (key : jsstring) : option jsstring :=
  match find (fun kv => str_eqb (fst kv) key) o with
  | Some (_, v) => v
  | None => None
  end.

(** [searchData.filters?.[key] || ''], the value the input of a filter is
    rendered with. *)
Definition filter_value (st : State) (key : jsstring) : jsstring :=
  match filters (searchData st) with
  | Some o => opt_or_else (get o key) empty_str
  | None => empty_str
  end.

(** Events that only edit the form. *)
Definition edits (e : event) : Prop :=
  match e with
  | Search _ | SaveSearch _ _ => False
  | _ => True
  end.

End SearchInterface.

(* ================================================================== *)
(** * components/recruiter/SearchResults.tsx                            *)
(* ================================================================== *)

Module SearchResults.
Import Js Types Api.
Local Open Scope handler_scope.

Record CVModalState := {
  isOpen : bool;
  candidateId : jsstring;
  candidateName : jsstring;
  cvContent : jsstring;
  loading : bool;
  error : jsstring
}.

Inductive sortBy_t := similarity | experience.
Inductive sortOrder_t := asc | desc.

(** [minSimilarity] is a number set from [parseInt]; [None] is NaN. *)
Record State := {
  sortBy : sortBy_t;
  sortOrder : sortOrder_t;
  minSimilarity : option Z;
  experienceFilter : jsstring;
  cvModal : CVModalState
}.

Definition closed_modal : CVModalState :=
  {| isOpen := false; candidateId := empty_str; candidateName := empty_str;
     cvContent := empty_str; loading := false; error := empty_str |}.

Definition initial : State :=
  {| sortBy := similarity; sortOrder := desc; minSimilarity := Some 0%Z;
     experienceFilter := empty_str; cvModal := closed_modal |}.

Definition with_sortBy v (s : State) : State :=
  {| sortBy := v; sortOrder := sortOrder s; minSimilarity := minSimilarity s;
     experienceFilter := experienceFilter s; cvModal := cvModal s |}.
Definition with_sortOrder v (s : State) : State :=
  {| sortBy := sortBy s; sortOrder := v; minSimilarity := minSimilarity s;
     experienceFilter := experienceFilter s; cvModal := cvModal s |}.
Definition with_minSimilarity v (s : State) : State :=
  {| sortBy := sortBy s; sortOrder := sortOrder s; minSimilarity := v;
     experienceFilter := experienceFilter s; cvModal := cvModal s |}.
Definition with_experienceFilter v (s : State) : State :=
  {| sortBy := sortBy s; sortOrder := sortOrder s; minSimilarity := minSimilarity s;
     experienceFilter := v; cvModal := cvModal s |}.
Definition update_cvModal (f : CVModalState -> CVModalState) (s : State) : State :=
  {| sortBy := sortBy s; sortOrder := sortOrder s; minSimilarity := minSimilarity s;
     experienceFilter := experienceFilter s; cvModal := f (cvModal s) |}.

Definition setSortBy v : M State unit := setState (with_sortBy v).
Definition setSortOrder v : M State unit := setState (with_sortOrder v).
Definition setMinSimilarity v : M State unit := setState (with_minSimilarity v).
Definition setExperienceFilter v : M State unit := setState (with_experienceFilter v).
Definition setCvModal (f : CVModalState -> CVModalState) : M State unit :=
  setState (update_cvModal f).

(** The callback of [results.filter]: [minSimilarity / 100] is the quotient
    of two doubles, rounded to a double. *)
Definition keeps (minSimilarity : option Z) (experienceFilter : jsstring)
  (result : SearchResult) : bool :=
  if match minSimilarity with
     | Some m => js_lt (similarity_score result) (js_div (inject_Z m) 100)
     | None => false
     end
  then false
  else if truthy experienceFilter
          && negb (match experience_level result with
                   | Some l => str_eqb l experienceFilter
                   | None => false
                   end)
  then false
  else true.

Definition experienceLevels : list jsstring :=
  [ lit "entry"; lit "mid"; lit "senior"; lit "lead" ].

(** The callback of [filtered.sort]. *)
Definition compareFn (sortBy : sortBy_t) (sortOrder : sortOrder_t)
  (a b : SearchResult) : Q :=
  let comparison :=
    match sortBy with
    | similarity => similarity_score a - similarity_score b
    | experience =>
        let aLevel := indexOf experienceLevels (opt_or_else (experience_level a) empty_str) in
        let bLevel := indexOf experienceLevels (opt_or_else (experience_level b) empty_str) in
        inject_Z (aLevel - bLevel)
    end in
  match sortOrder with
  | desc => - comparison
  | asc => comparison
  end.

Definition filteredAndSortedResults (results : list SearchResult) (st : State)
  : list SearchResult :=
  let filtered := filter (keeps (minSimilarity st) (experienceFilter st)) results in
  Array_sort (compareFn (sortBy st) (sortOrder st)) filtered.

Definition space : jsstring := lit " ".

Definition handleViewDetails (server : Server) (result : SearchResult) : M State unit :=
  let candidateName' :=
    match sr_first_name result, sr_last_name result with
    | Some f, Some l =>
        if truthy f && truthy l then f ++ space ++ l
        else lit "Candidate " ++ substring0 8 (candidate_id result)
    | _, _ => lit "Candidate " ++ substring0 8 (candidate_id result)
    end in
  setCvModal (fun _ =>
    {| isOpen := true; candidateId := candidate_id result;
       candidateName := candidateName'; cvContent := empty_str;
       loading := true; error := empty_str |}) ;;
  try_catch
    (response <- await (GET_search_candidates_cv (candidate_id result))
                   (getCandidateCV server (candidate_id result)) ;;
     setCvModal (fun prev =>
       {| isOpen := isOpen prev; candidateId := candidateId prev;
          candidateName := candidateName prev; cvContent := cv_content response;
          loading := false; error := error prev |}))
    (fun err =>
     setCvModal (fun prev =>
       {| isOpen := isOpen prev; candidateId := candidateId prev;
          candidateName := candidateName prev; cvContent := cvContent prev;
          loading := false;
          error := detail_or err (lit "Failed to load CV content") |})).

Definition closeModal : M State unit :=
  setCvModal (fun _ => closed_modal).

(** The literals [0.8], [0.6] and [0.4] are the doubles nearest to them. *)
Definition getScoreColor (score : Q) : jsstring :=
  if Qle_bool (nearest (8 # 10)) score then lit "excellent"
  else if Qle_bool (nearest (6 # 10)) score then lit "good"
  else if Qle_bool (nearest (4 # 10)) score then lit "fair"
  else lit "poor".

(** [Math.round(score * 100)], the product rounded to a double first. *)
Definition formatScore (score : Q) : number :=
  Math_round_number (js_mul score 100).

Inductive event :=
| SortByChange (v : sortBy_t)
| SortOrderChange (v : sortOrder_t)
| MinSimilarityChange (value : jsstring)
| ExperienceFilterChange (value : jsstring)
| ViewDetails (result : SearchResult) (server : Server)
| CloseModal.

Definition step (sw : State * World) (e : event) : State * World :=
  let '(s, w) := sw in
  match e with
  | SortByChange v => run (setSortBy v) s w
  | SortOrderChange v => run (setSortOrder v) s w
  | MinSimilarityChange value => run (setMinSimilarity (parseInt value)) s w
  | ExperienceFilterChange value => run (setExperienceFilter value) s w
  | ViewDetails result server => run (handleViewDetails server result) s w
  | CloseModal => run closeModal s w
  end.

Definition steps (sw : State * World) (es : list event) : State * World :=
  fold_left step es sw.

(** The requests for CV text that a sequence of events asks for: one per
    view-details action, for the candidate of the result it was clicked
    on. *)
Definition cv_requests (es : list event) : list request :=
  flat_map (fun e => match e with
                     | ViewDetails result _ =>
                         [GET_search_candidates_cv (candidate_id result)]
                     | _ => []
                     end) es.

(** The text in the modal is empty or what a view-details call
    returned. *)
Definition cv_text_fetched (es : list event) (s : State) : Prop :=
  cvContent (cvModal s) = empty_str
  \/ exists result server response,
       In (ViewDetails result server) es
       /\ getCandidateCV server (candidate_id result) = Resolved response
       /\ cvContent (cvModal s) = cv_content response.

Definition getExperienceLabel (level : option jsstring) : jsstring :=
  match level with
  | Some l =>
      if str_eqb l (lit "entry") then lit "Entry Level"
      else if str_eqb l (lit "mid") then lit "Mid Level"
      else if str_eqb l (lit "senior") then lit "Senior Level"
      else if str_eqb l (lit "lead") then lit "Lead/Principal"
      else lit "Not specified"
  | None => lit "Not specified"
  end.

(** What the comparator compares: the score, or the position of the
    experience level in [experienceLevels], -1 for any other level. *)
Definition sort_key (sortBy : sortBy_t) (r : SearchResult) : Q :=
  match sortBy with
  | similarity => similarity_score r
  | experience =>
      inject_Z (indexOf experienceLevels (opt_or_else (experience_level r) empty_str))
  end.

(** [a] may stand before [b] under the chosen sort. *)
Definition in_order (sortBy : sortBy_t) (sortOrder : sortOrder_t)
  (a b : SearchResult) : Prop :=
  match sortOrder with
  | asc => sort_key sortBy a <= sort_key sortBy b
  | desc => sort_key sortBy b <= sort_key sortBy a
  end.

End SearchResults.

(* ================================================================== *)
(** * components/recruiter/RecruiterDashboard.tsx                       *)
(* ================================================================== *)

Module RecruiterDashboard.
Import Js Types Api.
Local Open Scope handler_scope.

Record SavedSearch := {
  id : jsstring;
  name : jsstring;
  criteria : SearchRequest
}.

Inductive Tab := search_tab | results_tab | saved_tab.

Record State := {
  profile : option Recruiter;
  searchResults : list SearchResult;
  lastSearchCriteria : option SearchRequest;
  savedSearches : list SavedSearch;
  loading : bool;
  searchLoading : bool;
  error : jsstring;
  activeTab : Tab
}.

Definition initial : State :=
  {| profile := None; searchResults := []; lastSearchCriteria := None;
     savedSearches := []; loading := true; searchLoading := false;
     error := empty_str; activeTab := search_tab |}.

Definition with_profile v (s : State) : State :=
  {| profile := v; searchResults := searchResults s;
     lastSearchCriteria := lastSearchCriteria s; savedSearches := savedSearches s;
     loading := loading s; searchLoading := searchLoading s; error := error s;
     activeTab := activeTab s |}.
Definition with_searchResults v (s : State) : State :=
  {| profile := profile s; searchResults := v;
     lastSearchCriteria := lastSearchCriteria s; savedSearches := savedSearches s;
     loading := loading s; searchLoading := searchLoading s; error := error s;
     activeTab := activeTab s |}.
Definition with_lastSearchCriteria v (s : State) : State :=
  {| profile := profile s; searchResults := searchResults s;
     lastSearchCriteria := v; savedSearches := savedSearches s;
     loading := loading s; searchLoading := searchLoading s; error := error s;
     activeTab := activeTab s |}.
Definition with_savedSearches v (s : State) : State :=
  {| profile := profile s; searchResults := searchResults s;
     lastSearchCriteria := lastSearchCriteria s; savedSearches := v;
     loading := loading s; searchLoading := searchLoading s; error := error s;
     activeTab := activeTab s |}.
Definition with_loading v (s : State) : State :=
  {| profile := profile s; searchResults := searchResults s;
     lastSearchCriteria := lastSearchCriteria s; savedSearches := savedSearches s;
     loading := v; searchLoading := searchLoading s; error := error s;
     activeTab := activeTab s |}.
Definition with_searchLoading v (s : State) : State :=
  {| profile := profile s; searchResults := searchResults s;
     lastSearchCriteria := lastSearchCriteria s; savedSearches := savedSearches s;
     loading := loading s; searchLoading := v; error := error s;
     activeTab := activeTab s |}.
Definition with_error v (s : State) : State :=
  {| profile := profile s; searchResults := searchResults s;
     lastSearchCriteria := lastSearchCriteria s; savedSearches := savedSearches s;
     loading := loading s; searchLoading := searchLoading s; error := v;
     activeTab := activeTab s |}.
Definition with_activeTab v (s : State) : State :=
  {| profile := profile s; searchResults := searchResults s;
     lastSearchCriteria := lastSearchCriteria s; savedSearches := savedSearches s;
     loading := loading s; searchLoading := searchLoading s; error := error s;
     activeTab := v |}.

Definition setProfile v : M State unit := setState (with_profile v).
Definition setSearchResults v : M State unit := setState (with_searchResults v).
Definition setLastSearchCriteria v : M State unit := setState (with_lastSearchCriteria v).
Definition setSavedSearches v : M State unit := setState (with_savedSearches v).
Definition setLoading v : M State unit := setState (with_loading v).
Definition setSearchLoading v : M State unit := setState (with_searchLoading v).
Definition setError v : M State unit := setState (with_error v).
Definition setActiveTab v : M State unit := setState (with_activeTab v).

(** [answer] is what [recruiterApi.getProfile()] settles with. *)
Definition loadProfile (answer : api_result Recruiter) : M State unit :=
  try_catch_finally
    (response <- await GET_profile_recruiter_me answer ;;
     setProfile (Some response))
    (fun err => setError (detail_or err (lit "Failed to load profile")))
    (setLoading false).

(** [answer] is what [recruiterApi.getSavedSearches()] settles with, its
    [searches] possibly missing; the [console.warn] of the handler is
    recorded as console output. *)
Definition loadSavedSearches (answer : api_result (option (list SavedSearch)))
  : M State unit :=
  try_catch
    (response <- await GET_search_saved answer ;;
     setSavedSearches (match response with Some l => l | None => [] end))
    (fun _ =>
       perform Console_log ;;
       setSavedSearches []).

Definition handleSearchResults (results : list SearchResult)
  (criteria : option SearchRequest) : M State unit :=
  setSearchResults results ;;
  when (match criteria with Some _ => true | None => false end)
    (setLastSearchCriteria criteria) ;;
  setActiveTab results_tab.

(** [name] is what [prompt] returned; [reloaded] is what the call of
    [loadSavedSearches] that follows a successful save settles with. *)
Definition handleSaveCurrentSearch (name : option jsstring) (server : Server)
  (reloaded : api_result (option (list SavedSearch))) (st : State) : M State unit :=
  match lastSearchCriteria st with
  | None => return_
  | Some criteria =>
      match name with
      | None => return_
      | Some name =>
          when (negb (truthy name)) return_ ;;
          try_catch
            (_ <- await (POST_search_saved name criteria)
                    (saveSearch server name criteria) ;;
             perform (Alert (lit "Search saved successfully!")) ;;
             loadSavedSearches reloaded)
            (fun err => setError (detail_or err (lit "Failed to save search")))
      end
  end.

Definition handleRunSavedSearch (server : Server) (criteria : SearchRequest)
  : M State unit :=
  setSearchLoading true ;;
  setError empty_str ;;
  try_catch_finally
    (response <- await (POST_search_candidates criteria) (search server criteria) ;;
     setSearchResults (results response) ;;
     setActiveTab results_tab)
    (fun err => setError (detail_or err (lit "Search failed. Please try again.")))
    (setSearchLoading false).

(** The preview of a saved search:
    [requirements.substring(0, 100)] followed by ['...'] when the
    requirements are longer than 100. *)
Definition search_preview (s : SavedSearch) : jsstring :=
  firstn 100 (requirements (criteria s))
  ++ (if (100 <? List.length (requirements (criteria s)))%nat then lit "..."
      else empty_str).

End RecruiterDashboard.

(* ================================================================== *)
(** * components/Router.tsx                                             *)
(* ================================================================== *)

Module Router.
Import Js Types.

Inductive UserType := for_candidate | for_recruiter.
Inductive AuthMode := login_mode | register_mode.

(** What [useAuth()] gives the router. *)
Record Auth := {
  user : option User;
  isAuthenticated : bool;
  loading : bool
}.

Record State := {
  selectedUserType : UserType;
  authMode : AuthMode
}.

Definition initial : State :=
  {| selectedUserType := for_candidate; authMode := login_mode |}.

(** The component the router renders inside the layout. *)
Inductive View :=
| LoadingView
| CandidateDashboardView
| RecruiterDashboardView
| CandidateLoginView
| CandidateRegisterView
| RecruiterLoginView
| RecruiterRegisterView.

Definition auth_forms (st : State) : View :=
  match selectedUserType st, authMode st with
  | for_candidate, login_mode => CandidateLoginView
  | for_candidate, register_mode => CandidateRegisterView
  | for_recruiter, login_mode => RecruiterLoginView
  | for_recruiter, register_mode => RecruiterRegisterView
  end.

Definition render (auth : Auth) (st : State) : View :=
  if loading auth then LoadingView
  else
    match (if isAuthenticated auth then user auth else None) with
    | Some u =>
        if str_eqb (role_str (role u)) (lit "candidate") then CandidateDashboardView
        else if str_eqb (role_str (role u)) (lit "recruiter") then RecruiterDashboardView
        else auth_forms st
    | None => auth_forms st
    end.

End Router.

(* ================================================================== *)
(** * The search endpoint behind [recruiterApi.search]                  *)
(* ================================================================== *)

Module SearchOrchestrator.
Import Js Types.

(** Modelled from the spec: an entry the vector index returns, of the
    boundary [query(vector, k, filter) -> ordered [(key, score, metadata)]];
    the index service is not among the sources. *)
Record IndexHit := {
  vector_key : jsstring;
  score : Q;
  hit_metadata : Filters
}.

(** Modelled from the spec: the profile row the ProfileStore holds for a
    candidate, as far as the search reads it; the store is not among the
    sources. *)
Record Profile := {
  profile_id : jsstring;
  profile_first_name : jsstring;
  profile_last_name : jsstring;
  profile_email : jsstring;
  profile_status : jsstring
}.

(** Modelled from the spec: the two ways a search fails, on bad input and
    on an unavailable collaborator; the backend is not among the sources. *)
Inductive SearchError := ValidationError | Retryable.

(** Modelled from the spec: step 1, the limit is clamped to a bounded range
    (1 to 50); the backend is not among the sources. *)
Definition clamp_limit (limit : Z) : Z := Z.max 1 (Z.min 50 limit).

(** Modelled from the spec: step 6, the order of the ranked list, score
    descending and candidate id ascending among equal scores. *)
Definition ranks_before (a b : SearchResult) : bool :=
  negb (Qle_bool (similarity_score a) (similarity_score b))
  || (Qeq_bool (similarity_score a) (similarity_score b)
      && str_leb (candidate_id a) (candidate_id b)).

Section Collaborators.

(** The external collaborators of the orchestrator: the embedder, the
    vector index and the profile store, each of which may fail or miss. *)
Variable Vector : Type.
Variable embed : jsstring -> option Vector.
Variable query : Vector -> Z -> Filters -> option (list IndexHit).
Variable resolve : jsstring -> option Profile.

(** Modelled from the spec: steps 4 and 5, a hit is resolved against the
    profile store, dropped when the profile is gone or not [completed], and
    enriched with name and email otherwise. *)
Definition enrich (h : IndexHit) : option SearchResult :=
  match resolve (vector_key h) with
  | Some p =>
      if str_eqb (profile_status p) (lit "completed")
      then Some {| candidate_id := profile_id p;
                   similarity_score := score h;
                   sr_first_name := Some (profile_first_name p);
                   sr_last_name := Some (profile_last_name p);
                   sr_email := Some (profile_email p);
                   matched_skills := None;
                   experience_level :=
                     match find (fun kv => str_eqb (fst kv) (lit "experience_level"))
                                (hit_metadata h) with
                     | Some (_, v) => v
                     | None => None
                     end |}
      else None
  | None => None
  end.

(** Modelled from the spec: the surviving hits, in the order of the index. *)
Fixpoint surviving (hits : list IndexHit) : list SearchResult :=
  match hits with
  | [] => []
  | h :: rest =>
      match enrich h with
      | Some r => r :: surviving rest
      | None => surviving rest
      end
  end.

(** Modelled from the spec: step 6, the re-ranking. *)
Definition rerank (hits : list SearchResult) : list SearchResult :=
  Array_sort (fun a b => if ranks_before a b then (-1)%Q else 1%Q) hits.

(** Modelled from the spec: [search(recruiterId, requirements, filters,
    limit)] of section 4.3, steps 1 to 6 without the optional backfill;
    the backend is not among the sources. *)
Definition search (requirements : jsstring) (filters : Filters) (limit : Z)
  : SearchError + list SearchResult :=
  if negb (truthy requirements) then inl ValidationError
  else
    let limit := clamp_limit limit in
    match embed requirements with
    | None => inl Retryable
    | Some v =>
        match query v limit filters with
        | None => inl Retryable
        | Some hits => inr (firstn (Z.to_nat limit) (rerank (surviving hits)))
        end
    end.

(** The index keeps its contract: every score it returns is in [0, 1]. *)
Definition index_in_contract : Prop :=
  forall v k f hits, query v k f = Some hits ->
    Forall (fun h => 0 <= score h /\ score h <= 1) hits.

End Collaborators.

End SearchOrchestrator.

(* ================================================================== *)
(** * Sample data                                                       *)
(* ================================================================== *)

Module Samples.
Import Js Types Api.

Definition unreachable : AxiosError := {| response := None |}.

(** A backend that cannot be reached: every call is rejected without a
    response. *)
Definition offline : Server :=
  {| login := fun _ _ => Rejected unreachable;
     registerCandidate := fun _ _ _ _ => Rejected unreachable;
     registerRecruiter := fun _ _ _ _ => Rejected unreachable;
     getCurrentUser := fun _ => Rejected unreachable;
     uploadCV := fun _ => ([], Rejected unreachable);
     search := fun _ => Rejected unreachable;
     getCandidateCV := fun _ => Rejected unreachable;
     saveSearch := fun _ _ => Rejected unreachable |}.

Definition recruiter_session : AuthResponse :=
  {| access_token := lit "token-r"; token_type := lit "bearer";
     expires_in := 3600; user_id := lit "u-2"; user_role := recruiter |}.

(** A backend whose login answers with a recruiter's session. *)
Definition recruiter_backend : Server :=
  {| login := fun _ _ => Resolved recruiter_session;
     registerCandidate := fun _ _ _ _ => Rejected unreachable;
     registerRecruiter := fun _ _ _ _ => Rejected unreachable;
     getCurrentUser := fun _ => Rejected unreachable;
     uploadCV := fun _ => ([], Rejected unreachable);
     search := fun _ => Rejected unreachable;
     getCandidateCV := fun _ => Rejected unreachable;
     saveSearch := fun _ _ => Rejected unreachable |}.

(** A browser with empty storage in which nothing has happened yet. *)
Definition fresh : World :=
  {| localStorage := {| ls_access_token := None; ls_user := None |};
     trace := [] |}.

Definition notes_txt : File :=
  {| name := lit "notes.txt"; type := lit "text/plain"; size := 5 |}.

Definition cv_pdf : File :=
  {| name := lit "cv.pdf"; type := lit "application/pdf"; size := 2 * 1024 * 1024 |}.

Definition hit (cid : string) (score : Q) (level : option string) : SearchResult :=
  {| candidate_id := lit cid; similarity_score := score;
     sr_first_name := None; sr_last_name := None; sr_email := None;
     matched_skills := None; experience_level := option_map lit level |}.

(** A vector index with two entries, and a profile store in which every
    candidate is [completed]. *)
Definition two_hits (_ : unit) (_ : Z) (_ : Filters)
  : option (list SearchOrchestrator.IndexHit) :=
  Some [ {| SearchOrchestrator.vector_key := lit "k-1";
            SearchOrchestrator.score := 9 # 10;
            SearchOrchestrator.hit_metadata := [] |};
         {| SearchOrchestrator.vector_key := lit "k-2";
            SearchOrchestrator.score := 1 # 2;
            SearchOrchestrator.hit_metadata := [] |} ].

Definition all_completed (key : jsstring) : option SearchOrchestrator.Profile :=
  Some {| SearchOrchestrator.profile_id := key;
          SearchOrchestrator.profile_first_name := lit "Ada";
          SearchOrchestrator.profile_last_name := lit "L";
          SearchOrchestrator.profile_email := lit "ada@example.org";
          SearchOrchestrator.profile_status := lit "completed" |}.

End Samples.

(* ================================================================== *)
(** * Properties the statements below are phrased with                  *)
(* ================================================================== *)

Module Ranking.
Import Js Types.

(** [a] may stand before [b] in a list ranked by score descending with
    ties broken by ascending candidate id. *)
Definition score_then_id (a b : SearchResult) : Prop :=
  similarity_score b < similarity_score a
  \/ (similarity_score a == similarity_score b
      /\ str_leb (candidate_id a) (candidate_id b) = true).

Definition ranked_by_score_then_id (l : list SearchResult) : Prop :=
  StronglySorted score_then_id l.

(** [a] may stand before [b] in a list ranked by score descending. *)
Definition score_descending (a b : SearchResult) : Prop :=
  similarity_score b <= similarity_score a.

(** The results of [l] whose score equals [q], in the order of [l]. *)
Definition with_score (q : Q) (l : list SearchResult) : list SearchResult :=
  filter (fun r => Qeq_bool (similarity_score r) q) l.

(** [x] is at least the number [t]. *)
Definition at_least (x : Q) (t : number) : Prop :=
  match t with
  | Finite q => q <= x
  | Infinity => False
  | NegInfinity => True
  end.

(** [a] is at most [b]. *)
Definition number_le (a b : number) : Prop :=
  match a, b with
  | NegInfinity, _ => True
  | _, Infinity => True
  | Finite x, Finite y => x <= y
  | _, _ => False
  end.

(** A result passes the client-side filters: its score is at least
    [m / 100], the quotient being the one the program computes, and its
    experience level is [e] when [e] is not empty. *)
Definition passes (m : Z) (e : jsstring) (r : SearchResult) : Prop :=
  at_least (similarity_score r) (js_div (inject_Z m) 100)
  /\ (e <> empty_str -> experience_level r = Some e).

(** A similarity score is a number from 0 to 1. *)
Definition in_unit_interval (r : SearchResult) : Prop :=
  0 <= similarity_score r /\ similarity_score r <= 1.

End Ranking.

Module Session.
Import Js Types Api.

(** The token the request interceptor attaches once [token] is what
    localStorage holds. *)
Definition sent_token (token : jsstring) : option jsstring :=
  if truthy token then Some token else None.

(** The call was rejected with status 401. *)
Definition unauthorized (err : AxiosError) : bool :=
  match response err with
  | Some e => (status e =? 401)%Z
  | None => false
  end.

Definition candidate_session : AuthResponse :=
  {| access_token := lit "token-c"; token_type := lit "bearer";
     expires_in := 3600; user_id := lit "u-1"; user_role := candidate |}.



(** The same backend with a profile call that fails with status 500. *)
Definition profile_down : Server :=
  {| login := fun _ _ => Resolved candidate_session;
     registerCandidate := fun _ _ _ _ => Resolved candidate_session;
     registerRecruiter := fun _ _ _ _ => Resolved candidate_session;
     getCurrentUser := fun _ =>
       Rejected {| response := Some {| status := 500; data_detail := None |} |};
     uploadCV := fun _ => ([], Rejected Samples.unreachable);
     search := fun _ => Rejected Samples.unreachable;
     getCandidateCV := fun _ => Rejected Samples.unreachable;
     saveSearch := fun _ _ => Rejected Samples.unreachable |}.

End Session.

(* ================================================================== *)
(** * Facts about the JavaScript built-ins                              *)
(* ================================================================== *)

Section JsFacts.
Import Js.

Lemma str_eqb_eq (a b : jsstring) : str_eqb a b = true <-> a = b.
Proof.
  revert b; induction a as [|x a IH]; intros [|y b]; simpl; split;
    try discriminate; try reflexivity.
  - intros H. apply andb_true_iff in H as [Hx Hab].
    apply N.eqb_eq in Hx. apply IH in Hab. now subst.
  - intros H. injection H as -> ->.
    apply andb_true_iff. split; [apply N.eqb_refl | now apply IH].
Qed.

Lemma str_eqb_refl (a : jsstring) : str_eqb a a = true.
Proof. now apply str_eqb_eq. Qed.

Lemma str_eqb_neq (a b : jsstring) : str_eqb a b = false <-> a <> b.
Proof.
  split.
  - intros H Heq. apply str_eqb_eq in Heq. congruence.
  - intros H. destruct (str_eqb a b) eqn:E; [|reflexivity].
    apply str_eqb_eq in E. contradiction.
Qed.

Lemma includes_In (arr : list jsstring) (x : jsstring) :
  includes arr x = true <-> In x arr.
Proof.
  unfold includes. rewrite existsb_exists. split.
  - intros [y [Hin Heq]]. apply str_eqb_eq in Heq. now subst.
  - intros Hin. exists x. split; [assumption | apply str_eqb_refl].
Qed.

Lemma truthy_false (s : jsstring) : truthy s = false <-> s = [].
Proof. destruct s; simpl; split; congruence. Qed.

Lemma trimStart_nil (s : jsstring) :
  trimStart s = [] <-> forallb is_ws s = true.
Proof.
  induction s as [|c s IH]; simpl.
  - tauto.
  - destruct (is_ws c); simpl; [exact IH | split; discriminate].
Qed.

Lemma forallb_trimStart (s : jsstring) :
  forallb is_ws (trimStart s) = forallb is_ws s.
Proof.
  induction s as [|c s IH]; simpl; [reflexivity|].
  destruct (is_ws c) eqn:E; simpl; [exact IH | now rewrite E].
Qed.

Lemma forallb_rev {A} (p : A -> bool) (l : list A) :
  forallb p (rev l) = forallb p l.
Proof.
  induction l as [|x l IH]; simpl; [reflexivity|].
  rewrite forallb_app, IH. simpl. rewrite andb_true_r. apply andb_comm.
Qed.

Lemma trimEnd_nil (s : jsstring) :
  trimEnd s = [] <-> forallb is_ws s = true.
Proof.
  unfold trimEnd. rewrite <- (forallb_rev is_ws s), <- trimStart_nil.
  split; intros H.
  - apply (f_equal (@rev N)) in H. now rewrite rev_involutive in H.
  - now rewrite H.
Qed.

(** [s.trim()] is the empty string exactly when [s] is made of white space
    only (the empty string included). *)
Lemma trim_nil (s : jsstring) :
  trim s = [] <-> forallb is_ws s = true.
Proof.
  unfold trim. rewrite trimEnd_nil, forallb_trimStart. tauto.
Qed.

End JsFacts.

(* ================================================================== *)
(** * Facts about rounding to doubles                                   *)
(* ================================================================== *)

Section DoubleFacts.
Import Js.

Lemma pow2_pos (e : Z) : 0 < pow2 e.
Proof. apply Qpower_0_lt. reflexivity. Qed.

Lemma pow2_plus (a b : Z) : pow2 (a + b) == pow2 a * pow2 b.
Proof. apply Qpower_plus. discriminate. Qed.

Lemma pow2_le (a b : Z) : (a <= b)%Z -> pow2 a <= pow2 b.
Proof. intros H. apply Qpower_le_compat_l; [exact H | discriminate]. Qed.

Lemma pow2_lt_inv (a b : Z) : pow2 a < pow2 b -> (a < b)%Z.
Proof. intros H. apply (Qpower_lt_compat_l_inv 2); [exact H | reflexivity]. Qed.

Lemma pow2_Z (a : Z) : (0 <= a)%Z -> pow2 a == inject_Z (2 ^ a).
Proof. intros H. symmetry. apply (Zpower_Qpower 2 a H). Qed.

Lemma pow2_succ (a : Z) : pow2 (a + 1) == 2 * pow2 a.
Proof. rewrite pow2_plus. change (pow2 1) with 2. ring. Qed.

Lemma pow2_pred (a : Z) : pow2 (a - 1) == pow2 a / 2.
Proof.
  assert (H : pow2 a == 2 * pow2 (a - 1)).
  { rewrite <- pow2_succ. now replace (a - 1 + 1)%Z with a by ring. }
  rewrite H. field.
Qed.

Lemma pow2_minus (a b : Z) : pow2 (a - b) == pow2 a / pow2 b.
Proof. apply Qpower_minus. discriminate. Qed.

Lemma Qnum_pos (q : Q) : 0 < q <-> (0 < Qnum q)%Z.
Proof. unfold Qlt. simpl. rewrite Z.mul_1_r. tauto. Qed.

(** [log2_floor q] is the exponent of the power of two at or below [q]. *)
Lemma log2_floor_spec (q : Q) :
  0 < q -> pow2 (log2_floor q) <= q /\ q < pow2 (log2_floor q + 1).
Proof.
  intros Hq. destruct q as [n d]. apply Qnum_pos in Hq. simpl in Hq.
  unfold log2_floor. simpl Qnum. simpl Qden.
  set (a := Z.log2 n). set (b := Z.log2 (Zpos d)).
  destruct (Z.log2_spec n Hq) as [Ha1 Ha2]. fold a in Ha1, Ha2.
  destruct (Z.log2_spec (Zpos d) eq_refl) as [Hb1 Hb2]. fold b in Hb1, Hb2.
  assert (Ha0 : (0 <= a)%Z) by apply Z.log2_nonneg.
  assert (Hb0 : (0 <= b)%Z) by apply Z.log2_nonneg.
  rewrite Z.pow_succ_r in Ha2, Hb2 by assumption.
  assert (HA : (0 < 2 ^ a)%Z) by (apply Z.pow_pos_nonneg; lia).
  assert (HB : (0 < 2 ^ b)%Z) by (apply Z.pow_pos_nonneg; lia).
  assert (Hk : pow2 (a - b) == inject_Z (2 ^ a) / inject_Z (2 ^ b)).
  { rewrite pow2_minus, !pow2_Z by assumption. reflexivity. }
  assert (Hq' : n # d == inject_Z n / inject_Z (Zpos d))
    by apply Qmake_Qdiv.
  assert (HBq : 0 < inject_Z (2 ^ b))
    by (change 0 with (inject_Z 0); now rewrite <- Zlt_Qlt).
  assert (Hdq : 0 < inject_Z (Zpos d)) by reflexivity.
  assert (Hupper : n # d < pow2 (a - b + 1)).
  { rewrite pow2_succ, Hk, Hq'.
    apply Qlt_shift_div_r; [exact Hdq|].
    setoid_replace (2 * (inject_Z (2 ^ a) / inject_Z (2 ^ b)) * inject_Z (Zpos d))
      with (inject_Z (2 * 2 ^ a * Zpos d) / inject_Z (2 ^ b)).
    - apply Qlt_shift_div_l; [exact HBq|].
      rewrite <- inject_Z_mult, <- Zlt_Qlt. nia.
    - rewrite !inject_Z_mult. field. intros E.
      rewrite E in HBq. discriminate HBq. }
  assert (Hlower : pow2 (a - b - 1) <= n # d).
  { rewrite pow2_pred, Hk, Hq'.
    apply Qle_shift_div_l; [exact Hdq|].
    setoid_replace (inject_Z (2 ^ a) / inject_Z (2 ^ b) / 2 * inject_Z (Zpos d))
      with (inject_Z (2 ^ a * Zpos d) / inject_Z (2 * 2 ^ b)).
    - apply Qle_shift_div_r.
      + change 0 with (inject_Z 0). rewrite <- Zlt_Qlt. lia.
      + rewrite <- inject_Z_mult, <- Zle_Qle. nia.
    - rewrite !inject_Z_mult. field. intros E.
      rewrite E in HBq. discriminate HBq. }
  destruct (Qle_bool (pow2 (a - b)) (n # d)) eqn:E.
  - apply Qle_bool_iff in E. split; [exact E | exact Hupper].
  - split; [exact Hlower|].
    replace (a - b - 1 + 1)%Z with (a - b)%Z by ring.
    destruct (Qlt_le_dec (n # d) (pow2 (a - b))) as [H|H]; [exact H|].
    apply Qle_bool_iff in H. congruence.
Qed.

Lemma log2_floor_mono (x y : Q) :
  0 < x -> x <= y -> (log2_floor x <= log2_floor y)%Z.
Proof.
  intros Hx Hxy.
  destruct (log2_floor_spec x Hx) as [Hx1 _].
  destruct (log2_floor_spec y (Qlt_le_trans _ _ _ Hx Hxy)) as [_ Hy2].
  assert (H : pow2 (log2_floor x) < pow2 (log2_floor y + 1)).
  { eapply Qle_lt_trans; [exact Hx1|]. eapply Qle_lt_trans; [exact Hxy | exact Hy2]. }
  apply pow2_lt_inv in H. lia.
Qed.

(** ** Rounding to the nearest integer *)

Lemma round_half_even_near (x : Q) :
  inject_Z (round_half_even x) - (1 # 2) <= x
  /\ x <= inject_Z (round_half_even x) + (1 # 2).
Proof.
  unfold round_half_even.
  pose proof (Qfloor_le x) as Hf1. pose proof (Qlt_floor x) as Hf2.
  rewrite inject_Z_plus in Hf2. change (inject_Z 1) with 1 in Hf2.
  destruct (Qcompare_spec (x - inject_Z (Qfloor x)) (1 # 2)) as [H|H|H].
  - destruct (Z.even (Qfloor x)); [|rewrite inject_Z_plus; change (inject_Z 1) with 1];
      split; lra.
  - split; lra.
  - rewrite inject_Z_plus. change (inject_Z 1) with 1. split; lra.
Qed.

Lemma round_half_even_comp (x y : Q) :
  x == y -> round_half_even x = round_half_even y.
Proof.
  intros H. unfold round_half_even.
  rewrite (Qfloor_comp x y H).
  assert (E : x - inject_Z (Qfloor y) == y - inject_Z (Qfloor y)) by (rewrite H; reflexivity).
  now rewrite (Qcompare_comp _ _ E _ _ (Qeq_refl (1 # 2))).
Qed.

Lemma round_half_even_Z (n : Z) : round_half_even (inject_Z n) = n.
Proof.
  unfold round_half_even. rewrite Qfloor_Z.
  destruct (Qcompare_spec (inject_Z n - inject_Z n) (1 # 2)) as [H|H|H].
  - lra.
  - reflexivity.
  - lra.
Qed.

Lemma round_half_even_mono (x y : Q) :
  x <= y -> (round_half_even x <= round_half_even y)%Z.
Proof.
  intros Hxy.
  destruct (Z.le_gt_cases (round_half_even x) (round_half_even y)) as [H|H];
    [exact H|].
  exfalso.
  destruct (round_half_even_near x) as [Hx _].
  destruct (round_half_even_near y) as [_ Hy].
  assert (H1 : (round_half_even y + 1 <= round_half_even x)%Z) by lia.
  rewrite Zle_Qle, inject_Z_plus in H1. change (inject_Z 1) with 1 in H1.
  assert (E : x == y) by lra.
  apply round_half_even_comp in E. lia.
Qed.

Lemma round_half_even_le (x : Q) (n : Z) :
  x <= inject_Z n -> (round_half_even x <= n)%Z.
Proof.
  intros H. rewrite <- (round_half_even_Z n). now apply round_half_even_mono.
Qed.

Lemma round_half_even_ge (x : Q) (n : Z) :
  inject_Z n <= x -> (n <= round_half_even x)%Z.
Proof.
  intros H. rewrite <- (round_half_even_Z n) at 1. now apply round_half_even_mono.
Qed.

(** ** Rounding to 53 bits *)

Lemma scaled_le (x y : Q) (e : Z) : x <= y -> x / pow2 e <= y / pow2 e.
Proof.
  intros H. unfold Qdiv. apply Qmult_le_compat_r; [exact H|].
  apply Qlt_le_weak, Qinv_lt_0_compat, pow2_pos.
Qed.

Lemma nearest_pos_nonneg (x : Q) : 0 < x -> 0 <= nearest_pos x.
Proof.
  intros Hx. unfold nearest_pos.
  set (e := Z.max (log2_floor x - 52) (-1074)).
  apply Qmult_le_0_compat; [|apply Qlt_le_weak, pow2_pos].
  change 0 with (inject_Z 0). rewrite <- Zle_Qle.
  apply round_half_even_ge. change (inject_Z 0) with 0.
  apply Qle_shift_div_l; [apply pow2_pos|]. lra.
Qed.

Lemma nearest_pos_mono (x y : Q) :
  0 < x -> x <= y -> nearest_pos x <= nearest_pos y.
Proof.
  intros Hx Hxy.
  assert (Hy : 0 < y) by (eapply Qlt_le_trans; eassumption).
  pose proof (log2_floor_mono x y Hx Hxy) as HL.
  destruct (log2_floor_spec x Hx) as [_ Hx2].
  destruct (log2_floor_spec y Hy) as [Hy1 _].
  unfold nearest_pos.
  set (ex := Z.max (log2_floor x - 52) (-1074)).
  set (ey := Z.max (log2_floor y - 52) (-1074)).
  assert (Hexy : (ex <= ey)%Z) by (unfold ex, ey; lia).
  destruct (Z.eq_dec ex ey) as [E|E].
  - rewrite <- E. apply Qmult_le_compat_r; [|apply Qlt_le_weak, pow2_pos].
    rewrite <- Zle_Qle. apply round_half_even_mono. now apply scaled_le.
  - assert (Hey : ey = (log2_floor y - 52)%Z) by (unfold ex, ey in *; lia).
    assert (Hex : (log2_floor x + 1 <= ex + 53)%Z) by (unfold ex; lia).
    apply Qle_trans with (pow2 (ex + 53)).
    + setoid_replace (pow2 (ex + 53)) with (pow2 53 * pow2 ex)
        by (rewrite pow2_plus; ring).
      apply Qmult_le_compat_r; [|apply Qlt_le_weak, pow2_pos].
      rewrite (pow2_Z 53) by lia. rewrite <- Zle_Qle.
      apply round_half_even_le. rewrite <- (pow2_Z 53) by lia.
      apply Qle_shift_div_r; [apply pow2_pos|].
      rewrite <- pow2_plus, Z.add_comm.
      apply Qlt_le_weak. eapply Qlt_le_trans; [exact Hx2|]. now apply pow2_le.
    + apply Qle_trans with (pow2 (52 + ey)); [apply pow2_le; lia|].
      rewrite pow2_plus.
      apply Qmult_le_compat_r; [|apply Qlt_le_weak, pow2_pos].
      rewrite (pow2_Z 52) by lia. rewrite <- Zle_Qle.
      apply round_half_even_ge. rewrite <- (pow2_Z 52) by lia.
      apply Qle_shift_div_l; [apply pow2_pos|].
      rewrite <- pow2_plus. replace (52 + ey)%Z with (log2_floor y) by lia.
      exact Hy1.
Qed.

Lemma Qnum_neg (q : Q) : q < 0 <-> (Qnum q < 0)%Z.
Proof. unfold Qlt. simpl. rewrite Z.mul_1_r. tauto. Qed.

Lemma Qnum_zero (q : Q) : q == 0 <-> Qnum q = 0%Z.
Proof. unfold Qeq. simpl. rewrite Z.mul_1_r. tauto. Qed.

(** Rounding keeps the order. *)
Lemma nearest_mono (x y : Q) : x <= y -> nearest x <= nearest y.
Proof.
  intros Hxy. unfold nearest.
  destruct (Qnum x) as [|px|px] eqn:Ex, (Qnum y) as [|py|py] eqn:Ey.
  - apply Qle_refl.
  - apply nearest_pos_nonneg. apply Qnum_pos. now rewrite Ey.
  - exfalso. assert (Hx : x == 0) by (apply Qnum_zero; exact Ex).
    assert (Hy : y < 0) by (apply Qnum_neg; now rewrite Ey). lra.
  - exfalso. assert (Hy : y == 0) by (apply Qnum_zero; exact Ey).
    assert (Hx : 0 < x) by (apply Qnum_pos; now rewrite Ex). lra.
  - apply nearest_pos_mono; [apply Qnum_pos; now rewrite Ex | exact Hxy].
  - exfalso. assert (Hx : 0 < x) by (apply Qnum_pos; now rewrite Ex).
    assert (Hy : y < 0) by (apply Qnum_neg; now rewrite Ey). lra.
  - assert (Hx : x < 0) by (apply Qnum_neg; now rewrite Ex).
    assert (H := nearest_pos_nonneg (- x)). lra.
  - assert (Hx : x < 0) by (apply Qnum_neg; now rewrite Ex).
    assert (Hy : 0 < y) by (apply Qnum_pos; now rewrite Ey).
    assert (H1 := nearest_pos_nonneg (- x)).
    assert (H2 := nearest_pos_nonneg y Hy). lra.
  - assert (Hx : x < 0) by (apply Qnum_neg; now rewrite Ex).
    assert (Hy : y < 0) by (apply Qnum_neg; now rewrite Ey).
    assert (H := nearest_pos_mono (- y) (- x)). lra.
Qed.


Lemma to_double_mono (x y : Q) :
  x <= y -> Ranking.number_le (to_double x) (to_double y).
Proof.
  intros H. apply nearest_mono in H. unfold to_double.
  destruct (Qle_bool (nearest x) max_double) eqn:Ex1.
  - destruct (Qle_bool (- max_double) (nearest x)) eqn:Ex2; [|exact I].
    destruct (Qle_bool (nearest y) max_double) eqn:Ey1; [|exact I].
    destruct (Qle_bool (- max_double) (nearest y)) eqn:Ey2; [exact H|].
    apply Qle_bool_iff in Ex2.
    assert (C : - max_double <= nearest y) by (eapply Qle_trans; eassumption).
    apply Qle_bool_iff in C. congruence.
  - destruct (Qle_bool (nearest y) max_double) eqn:Ey1.
    + apply Qle_bool_iff in Ey1.
      assert (C : nearest x <= max_double) by (eapply Qle_trans; eassumption).
      apply Qle_bool_iff in C. congruence.
    + exact I.
Qed.

(** A result between two doubles in range is rounded to a finite double
    between them. *)
Lemma to_double_between (lo hi x : Q) :
  nearest lo == lo -> nearest hi == hi ->
  - max_double <= lo -> hi <= max_double ->
  lo <= x -> x <= hi ->
  to_double x = Finite (nearest x) /\ lo <= nearest x /\ nearest x <= hi.
Proof.
  intros Elo Ehi Hlo Hhi Hx1 Hx2.
  apply nearest_mono in Hx1, Hx2. rewrite Elo in Hx1. rewrite Ehi in Hx2.
  unfold to_double.
  assert (H1 : Qle_bool (nearest x) max_double = true)
    by (apply Qle_bool_iff; eapply Qle_trans; eassumption).
  assert (H2 : Qle_bool (- max_double) (nearest x) = true)
    by (apply Qle_bool_iff; eapply Qle_trans; eassumption).
  rewrite H1, H2. now repeat split.
Qed.

End DoubleFacts.

(* ================================================================== *)
(** * The candidate profile's processing status                         *)
(* ================================================================== *)

Section StatusFacts.
Import Js Types CandidateDashboard.

(** The dashboard shows ['none'] only for an absent profile: a status of
    the type is never the empty string. *)
Lemma shown_status_spec (profile : option Candidate) :
  shown_status profile =
  match profile with
  | Some p => status_str (cv_processing_status p)
  | None => lit "none"
  end.
Proof. destruct profile as [p|]; [destruct p as [? ? ? ? [] ? ?] |]; reflexivity. Qed.

(** C3, as the code has it: every value the type of
    [Candidate.cv_processing_status] admits is one of the five status values
    none, pending, processing, completed, failed; the type admits pending,
    completed and failed, and it does not admit none, which the dashboard
    shows when no profile is loaded, a loaded profile being shown with its
    own status. *)
Theorem cv_processing_status_values :
  (forall v, admits v -> In v status_values)
  /\ admits (lit "pending") /\ admits (lit "completed") /\ admits (lit "failed")
  /\ ~ admits (lit "none")
  /\ shown_status None = lit "none"
  /\ (forall p, shown_status (Some p) = status_str (cv_processing_status p)).
Proof.
  split; [|split; [|split; [|split; [|split; [|split]]]]].
  - intros v [[] <-]; simpl; tauto.
  - now exists pending.
  - now exists completed.
  - now exists failed.
  - intros [[] H]; discriminate H.
  - reflexivity.
  - intros p. apply (shown_status_spec (Some p)).
Qed.

(** A pending status is one of the five values. *)
Lemma cv_processing_status_values_witness : In (lit "pending") status_values.
Proof.
  apply (proj1 cv_processing_status_values). now exists pending.
Defined.

(** C3 as stated fails: none is one of the five values, and the type of
    [cv_processing_status] does not admit it. *)
Lemma cv_processing_status_not_five :
  ~ (forall v, In v status_values <-> admits v).
Proof.
  intros H.
  assert (Hnone : admits (lit "none")) by (apply H; simpl; tauto).
  destruct Hnone as [[] Hs]; discriminate Hs.
Qed.

End StatusFacts.

(* ================================================================== *)
(** * CV upload validation                                              *)
(* ================================================================== *)

Section CVUploadFacts.
Import Js Types Api CVUpload.
Local Open Scope Z_scope.

Lemma acceptable_dec (f : File) :
  acceptable f <->
  includes allowedTypes (type f) = true /\ (size f >? maxFileSize) = false.
Proof.
  unfold acceptable. rewrite includes_In. unfold maxFileSize.
  rewrite Z.gtb_ltb, Z.ltb_ge. tauto.
Qed.

(** An acceptable file becomes the selected file; nothing else happens. *)
Lemma handleFileSelect_accepts (s : State) (w : World) (f : File) :
  acceptable f ->
  run (handleFileSelect (Some f)) s w =
  ({| selectedFile := Some f; uploading := uploading s;
      uploadProgress := uploadProgress s; error := empty_str; success := empty_str |}, w).
Proof.
  intros H. apply acceptable_dec in H as [Ht Hs].
  unfold run, handleFileSelect, when, bind, setError, setSuccess, setSelectedFile,
    setState, return_, ret.
  rewrite Ht, Hs. reflexivity.
Qed.

(** Any other file is rejected: an error message, no selected file, the
    world untouched. *)
Lemma handleFileSelect_rejects (s : State) (w : World) (f : File) :
  ~ acceptable f ->
  exists msg,
    truthy msg = true /\
    run (handleFileSelect (Some f)) s w =
    ({| selectedFile := None; uploading := uploading s;
        uploadProgress := uploadProgress s; error := msg; success := empty_str |}, w).
Proof.
  intros H. rewrite acceptable_dec in H.
  unfold run, handleFileSelect, when, bind, setError, setSuccess, setSelectedFile,
    setState, return_, ret.
  destruct (includes allowedTypes (type f)) eqn:Ht.
  - destruct (size f >? maxFileSize) eqn:Hs.
    + eexists; split; [|reflexivity]. reflexivity.
    + exfalso. apply H. split; reflexivity.
  - eexists; split; [|reflexivity]. reflexivity.
Qed.

(** Without a selected file [handleUpload] only sets its error. *)
Lemma handleUpload_without_file (server : Server) (s : State) (w : World) :
  selectedFile s = None ->
  run (handleUpload server s) s w =
  (with_error (lit "Please select a file to upload") s, w).
Proof.
  intros H. unfold run, handleUpload. rewrite H. reflexivity.
Qed.

End CVUploadFacts.

Section CVUploadInvariant.
Import Js Types Api CVUpload.
Local Open Scope Z_scope.

Lemma requests_emit (e : effect) (w : World) :
  requests (emit e w) =
  requests w ++ match e with Request r _ => [r] | _ => [] end.
Proof.
  unfold requests, emit; simpl. rewrite flat_map_app; simpl.
  now rewrite app_nil_r.
Qed.

Lemma requests_on_rejected (err : AxiosError) (w : World) :
  requests (on_rejected err w) = requests w.
Proof.
  unfold on_rejected. destruct (response err) as [r|]; [|reflexivity].
  destruct (status r =? 401); [|reflexivity].
  rewrite requests_emit. simpl. now rewrite app_nil_r.
Qed.

Lemma handleFileSelect_preserves (file : option File) (s : State) (w : World) :
  selection_acceptable (fst (run (handleFileSelect file) s w))
  /\ snd (run (handleFileSelect file) s w) = w.
Proof.
  destruct file as [f|].
  - destruct (includes allowedTypes (type f)) eqn:Ht;
      [destruct (size f >? maxFileSize) eqn:Hs|].
    + destruct (handleFileSelect_rejects s w f) as [msg [_ ->]].
      { rewrite acceptable_dec. intros [_ H]. congruence. }
      split; [intros g H; discriminate H | reflexivity].
    + rewrite handleFileSelect_accepts by (apply acceptable_dec; now split).
      split; [|reflexivity]. intros g H; simpl in H. injection H as <-.
      apply acceptable_dec; now split.
    + destruct (handleFileSelect_rejects s w f) as [msg [_ ->]].
      { rewrite acceptable_dec. intros [H _]. congruence. }
      split; [intros g H; discriminate H | reflexivity].
  - split; [intros g H; discriminate H | reflexivity].
Qed.

Lemma selectedFile_onUploadProgress (events : list (Z * Z)) (s : State) :
  selectedFile (onUploadProgress events s) = selectedFile s.
Proof.
  revert s. induction events as [|[loaded total] rest IH]; intros s; simpl.
  - reflexivity.
  - rewrite IH. now destruct (total =? 0).
Qed.

Lemma handleUpload_sends (server : Server) (s : State) (w : World) (f : File) :
  selectedFile s = Some f ->
  requests (snd (run (handleUpload server s) s w)) = requests w ++ [POST_cv_upload f]
  /\ (selectedFile (fst (run (handleUpload server s) s w)) = None
      \/ selectedFile (fst (run (handleUpload server s) s w)) = Some f).
Proof.
  intros H. unfold run, handleUpload, candidateApi_uploadCV. rewrite H.
  destruct (uploadCV server f) as [events answer].
  unfold try_catch_finally, bind, await_reporting, await, setUploading,
    setUploadProgress, setError, setSuccess, setSelectedFile, setState, perform, ret.
  destruct answer as [msg|err]; simpl.
  - split; [|now left].
    rewrite !requests_emit. simpl. now rewrite !app_nil_r.
  - split.
    + rewrite requests_on_rejected, requests_emit. reflexivity.
    + right. rewrite selectedFile_onUploadProgress. exact H.
Qed.

Lemma step_preserves (sw : State * World) (e : event) :
  selection_acceptable (fst sw) -> uploads_acceptable (snd sw) ->
  selection_acceptable (fst (step sw e)) /\ uploads_acceptable (snd (step sw e)).
Proof.
  destruct sw as [s w]; simpl. intros Hs Hw. destruct e as [file|files|server|].
  - destruct (handleFileSelect_preserves file s w) as [H1 H2].
    split; [exact H1 | now rewrite H2].
  - unfold handleDrop, run, bind, perform.
    destruct files as [|file files'].
    + simpl. split; [exact Hs|].
      unfold uploads_acceptable. rewrite requests_emit. simpl. now rewrite app_nil_r.
    + destruct (handleFileSelect_preserves (Some file) s (emit PreventDefault w))
        as [H1 H2].
      unfold run in H1, H2.
      destruct (handleFileSelect (Some file) s (emit PreventDefault w))
        as [[c s'] w']. simpl in *. subst w'.
      split; [exact H1|].
      unfold uploads_acceptable. rewrite requests_emit. simpl. now rewrite app_nil_r.
  - destruct (selectedFile s) as [f|] eqn:Hf.
    + destruct (handleUpload_sends server s w f Hf) as [Hreq Hsel].
      split.
      * intros g Hg. destruct Hsel as [Hsel|Hsel]; rewrite Hsel in Hg;
          [discriminate Hg | injection Hg as <-; now apply Hs].
      * unfold uploads_acceptable. rewrite Hreq. apply Forall_app. split; [exact Hw|].
        constructor; [now apply Hs | constructor].
    + rewrite handleUpload_without_file by exact Hf. simpl.
      split; [|exact Hw]. intros g Hg. simpl in Hg. now apply Hs.
  - unfold handleCancel, run, bind, setSelectedFile, setState, perform. simpl.
    split; [intros g Hg; discriminate Hg|].
    unfold uploads_acceptable. rewrite requests_emit. simpl. now rewrite app_nil_r.
Qed.

(** Whatever the user does, only acceptable files are uploaded. *)
Lemma steps_preserve (es : list event) (sw : State * World) :
  selection_acceptable (fst sw) -> uploads_acceptable (snd sw) ->
  selection_acceptable (fst (steps sw es)) /\ uploads_acceptable (snd (steps sw es)).
Proof.
  revert sw. induction es as [|e es IH]; intros sw Hs Hw; simpl.
  - now split.
  - destruct (step_preserves sw e Hs Hw) as [Hs' Hw']. now apply IH.
Qed.

End CVUploadInvariant.

Section CVUploadClaim.
Import Js Types Api CVUpload.
Local Open Scope Z_scope.

(** C1: a file handed to [handleFileSelect] becomes the selected file, the
    only thing [handleUpload] ever sends, if and only if its MIME type is
    one of the three allowed ones and its size is at most 10 MiB; any other
    file is rejected on the spot: an error message is set, the selected
    file is null, nothing is sent, and a following [handleUpload] sends
    nothing either.  Over every sequence of user actions, each upload
    request carries an acceptable file. *)
Theorem cv_upload_validation (server : Server) (s : State) (w : World) (f : File) :
  let s' := fst (run (handleFileSelect (Some f)) s w) in
  let w' := snd (run (handleFileSelect (Some f)) s w) in
  (selectedFile s' = Some f <-> acceptable f)
  /\ (~ acceptable f ->
      selectedFile s' = None
      /\ truthy (error s') = true
      /\ w' = w
      /\ snd (run (handleUpload server s') s' w') = w)
  /\ (forall es w0, requests w0 = [] ->
        uploads_acceptable (snd (steps (initial, w0) es))).
Proof.
  intros s' w'. subst s' w'.
  assert (Hdec : acceptable f \/ ~ acceptable f).
  { rewrite acceptable_dec.
    destruct (includes allowedTypes (type f)); [|right; intros [H _]; discriminate H].
    destruct (size f >? maxFileSize); [right; intros [_ H]; discriminate H|].
    left; now split. }
  split; [split | split].
  - intros H. destruct Hdec as [Hok|Hbad]; [exact Hok|].
    destruct (handleFileSelect_rejects s w f Hbad) as [msg [_ Hrun]].
    rewrite Hrun in H. discriminate H.
  - intros Hok. now rewrite (handleFileSelect_accepts s w f Hok).
  - intros Hbad.
    destruct (handleFileSelect_rejects s w f Hbad) as [msg [Hmsg Hrun]].
    rewrite Hrun. simpl. repeat split; assumption.
  - intros es w0 Hw0. apply steps_preserve; simpl.
    + intros g Hg; discriminate Hg.
    + unfold uploads_acceptable. rewrite Hw0. constructor.
Qed.

(** A plain-text file of five bytes is turned away. *)
Lemma cv_upload_validation_witness :
  selectedFile (fst (run (handleFileSelect (Some Samples.notes_txt))
                       initial Samples.fresh)) = None
  /\ snd (run (handleUpload Samples.offline
                 (fst (run (handleFileSelect (Some Samples.notes_txt))
                         initial Samples.fresh)))
            (fst (run (handleFileSelect (Some Samples.notes_txt))
                    initial Samples.fresh))
            (snd (run (handleFileSelect (Some Samples.notes_txt))
                    initial Samples.fresh))) = Samples.fresh.
Proof.
  assert (Hbad : ~ acceptable Samples.notes_txt).
  { intros [H _]. vm_compute in H. intuition discriminate. }
  destruct (cv_upload_validation Samples.offline initial Samples.fresh
              Samples.notes_txt) as [_ [H _]].
  destruct (H Hbad) as [H1 [_ [_ H4]]]. split; assumption.
Defined.

End CVUploadClaim.

(* ================================================================== *)
(** * The search form                                                   *)
(* ================================================================== *)

Section SearchInterfaceFacts.
Import Js Types Api SearchInterface.

Lemma criteria_sent_emit (e : effect) (w : World) :
  criteria_sent (emit e w) =
  criteria_sent w ++
  match e with
  | Request (POST_search_candidates q) _ => [q]
  | Request (POST_search_saved _ q) _ => [q]
  | _ => []
  end.
Proof.
  unfold criteria_sent. rewrite requests_emit, flat_map_app.
  f_equal. destruct e as [r a| | | | | | | | |]; try reflexivity.
  destruct r; reflexivity.
Qed.

Lemma criteria_sent_on_rejected (err : AxiosError) (w : World) :
  criteria_sent (on_rejected err w) = criteria_sent w.
Proof. unfold criteria_sent. now rewrite requests_on_rejected. Qed.

(** The options of the select parse to the limits it offers. *)
Lemma parseInt_limit_options (value : jsstring) :
  In value limit_options ->
  exists L, parseInt value = Some L /\ In L selectable /\ (1 <= L <= 50)%Z.
Proof.
  unfold limit_options. simpl.
  intros H. repeat (destruct H as [<-|H]; [eexists; split; [vm_compute; reflexivity|split; [simpl; tauto|lia]]|]).
  contradiction.
Qed.

(** What [handleSearch] does once the requirements are not blank. *)
Lemma handleSearch_sends (server : Server) (st : State) (w : World) :
  truthy (trim (requirements (searchData st))) = true ->
  fst (run (handleSearch server st) st w) =
    match search server (searchData st) with
    | Resolved _ => with_searching false (with_error empty_str (with_searching true st))
    | Rejected err =>
        with_searching false
          (with_error (detail_or err (lit "Search failed. Please try again."))
             (with_error empty_str (with_searching true st)))
    end
  /\ criteria_sent (snd (run (handleSearch server st) st w)) =
     criteria_sent w ++ [searchData st].
Proof.
  intros H. unfold run, handleSearch, when, bind, perform. rewrite H. simpl.
  unfold try_catch_finally, bind, await, setSearching, setError, setState, perform, ret.
  destruct (search server (searchData st)) as [resp|err]; simpl.
  - split; [reflexivity|].
    rewrite !criteria_sent_emit. simpl. now rewrite !app_nil_r.
  - split; [reflexivity|].
    rewrite criteria_sent_on_rejected, !criteria_sent_emit. simpl.
    now rewrite !app_nil_r.
Qed.

Lemma handleSearch_blank (server : Server) (st : State) (w : World) :
  truthy (trim (requirements (searchData st))) = false ->
  run (handleSearch server st) st w =
  (with_error (lit "Please enter job requirements") st, emit PreventDefault w).
Proof.
  intros H. unfold run, handleSearch, when, bind, perform. rewrite H. reflexivity.
Qed.

Lemma handleSaveSearch_effects (name : option jsstring) (server : Server)
  (st : State) (w : World) :
  searchData (fst (run (handleSaveSearch name server st) st w)) = searchData st
  /\ (criteria_sent (snd (run (handleSaveSearch name server st) st w)) = criteria_sent w
      \/ criteria_sent (snd (run (handleSaveSearch name server st) st w)) =
         criteria_sent w ++ [searchData st]).
Proof.
  unfold run, handleSaveSearch. destruct name as [name|]; [|simpl; now split; [|left]].
  unfold when, bind. destruct (truthy name); simpl; [|now split; [|left]].
  unfold try_catch, try_catch_finally, bind, await, setError, setState, perform, ret.
  destruct (saveSearch server name (searchData st)) as [i|err]; simpl.
  - split; [reflexivity|right].
    rewrite !criteria_sent_emit. simpl. now rewrite !app_nil_r.
  - split; [reflexivity|right].
    rewrite criteria_sent_on_rejected, !criteria_sent_emit. reflexivity.
Qed.

Lemma step_limit (sw : State * World) (e : event) :
  from_page e ->
  limit_selectable (searchData (fst sw)) ->
  Forall limit_selectable (criteria_sent (snd sw)) ->
  limit_selectable (searchData (fst (step sw e)))
  /\ Forall limit_selectable (criteria_sent (snd (step sw e))).
Proof.
  destruct sw as [s w]. simpl. intros He Hs Hw.
  destruct e as [value|filterKey value|value| |server|name server]; simpl.
  - split; [|exact Hw]. exact Hs.
  - split; [|exact Hw]. exact Hs.
  - split; [|exact Hw].
    destruct (parseInt_limit_options value He) as [L [HL [Hin Hb]]].
    exists L. simpl. rewrite HL. now repeat split.
  - split; [exact Hs | exact Hw].
  - destruct (truthy (trim (requirements (searchData s)))) eqn:Ht.
    + destruct (handleSearch_sends server s w Ht) as [H1 H2].
      rewrite H1, H2. split.
      * now destruct (search server (searchData s)).
      * apply Forall_app. split; [exact Hw | now constructor].
    + rewrite (handleSearch_blank server s w Ht). simpl. split; [exact Hs|].
      rewrite criteria_sent_emit. simpl. now rewrite app_nil_r.
  - destruct (handleSaveSearch_effects name server s w) as [H1 [H2|H2]];
      rewrite H1, H2; split; try assumption.
    apply Forall_app. split; [exact Hw | now constructor].
Qed.

Lemma steps_limit (es : list event) (sw : State * World) :
  Forall from_page es ->
  limit_selectable (searchData (fst sw)) ->
  Forall limit_selectable (criteria_sent (snd sw)) ->
  limit_selectable (searchData (fst (steps sw es)))
  /\ Forall limit_selectable (criteria_sent (snd (steps sw es))).
Proof.
  revert sw. induction es as [|e es IH]; intros sw Hes Hs Hw; simpl.
  - now split.
  - inversion Hes as [|? ? He Hes']; subst.
    destruct (step_limit sw e He Hs Hw) as [Hs' Hw']. now apply IH.
Qed.

(** C4: when the requirements are empty or white space only, [handleSearch]
    sets its error message and stops: the state is otherwise the one it
    started from, and no request has left the page. *)
Theorem blank_search_rejected (server : Server) (st : State) (w : World) :
  forallb is_ws (requirements (searchData st)) = true ->
  fst (run (handleSearch server st) st w) =
    with_error (lit "Please enter job requirements") st
  /\ localStorage (snd (run (handleSearch server st) st w)) = localStorage w
  /\ trace (snd (run (handleSearch server st) st w)) = trace w ++ [PreventDefault]
  /\ requests (snd (run (handleSearch server st) st w)) = requests w.
Proof.
  intros H. apply trim_nil in H.
  rewrite handleSearch_blank by (now rewrite H).
  simpl. repeat split. rewrite requests_emit. simpl. apply app_nil_r.
Qed.

(** Three spaces are no requirements. *)
Lemma blank_search_rejected_witness :
  error (fst (run (handleSearch Samples.offline
                     (with_searchData
                        {| requirements := lit "   "; filters := Some [];
                           limit := Some (Some 10%Z) |} initial))
                (with_searchData
                   {| requirements := lit "   "; filters := Some [];
                      limit := Some (Some 10%Z) |} initial)
                Samples.fresh))
  = lit "Please enter job requirements".
Proof.
  destruct (blank_search_rejected Samples.offline
              (with_searchData
                 {| requirements := lit "   "; filters := Some [];
                    limit := Some (Some 10%Z) |} initial)
              Samples.fresh) as [H _].
  - reflexivity.
  - rewrite H. reflexivity.
Defined.

(** C5: the form starts with limit 10, and whatever the user does with the
    page, the limit of the form and of every search request it has sent is
    one of 3, 5, 10, 15, 20, 25, 30, 40, 50, all of them within 1 to 50. *)
Theorem search_limit_bounded (es : list event) (w0 : World) :
  Forall from_page es ->
  criteria_sent w0 = [] ->
  limit (searchData initial) = Some (Some 10%Z)
  /\ limit_selectable (searchData (fst (steps (initial, w0) es)))
  /\ Forall limit_selectable (criteria_sent (snd (steps (initial, w0) es))).
Proof.
  intros Hes Hw0. split; [reflexivity|].
  apply steps_limit; simpl.
  - exact Hes.
  - exists 10%Z. split; [reflexivity|]. split; [simpl; tauto | lia].
  - rewrite Hw0. constructor.
Qed.

(** Typing requirements, choosing 25 results and searching sends one
    request, with limit 25. *)
Lemma search_limit_bounded_witness :
  Forall limit_selectable
    (criteria_sent
       (snd (steps (initial, Samples.fresh)
               [ RequirementsChange (lit "Python backend engineer");
                 LimitChange (lit "25");
                 Search Samples.offline ]))).
Proof.
  apply (search_limit_bounded
           [ RequirementsChange (lit "Python backend engineer");
             LimitChange (lit "25");
             Search Samples.offline ] Samples.fresh).
  - constructor; [exact I|]. constructor; [|constructor; [exact I|constructor]].
    vm_compute. tauto.
  - reflexivity.
Defined.

End SearchInterfaceFacts.

(* ================================================================== *)
(** * Signing in and signing up                                         *)
(* ================================================================== *)

Section LoginFacts.
Import Js Types Api CandidateLogin.

(** C8: when the login call answers with a role other than candidate,
    [handleSubmit] sets its error and returns: the form data is kept, the
    loading flag is back to false, localStorage is what it was, and the
    only effects are the submit's [preventDefault] and the login request
    itself; the token is not stored and [login] of the auth context is not
    called. *)
Theorem candidate_login_rejects_other_roles
  (server : Server) (st : State) (w : World) (response : AuthResponse) :
  login server (email (formData st)) (password (formData st)) = Resolved response ->
  role_str (user_role response) <> lit "candidate" ->
  fst (run (handleSubmit server st) st w) =
    {| formData := formData st; loading := false;
       error := lit "Invalid credentials for candidate login" |}
  /\ localStorage (snd (run (handleSubmit server st) st w)) = localStorage w
  /\ trace (snd (run (handleSubmit server st) st w)) =
     trace w ++ [ PreventDefault;
                  Request (POST_auth_login (email (formData st)) (password (formData st)))
                          (bearer (emit PreventDefault w)) ].
Proof.
  intros Hlogin Hrole. apply str_eqb_neq in Hrole.
  unfold run, handleSubmit, try_catch_finally, bind, await, when, perform,
    setLoading, setError, setState, return_, ret.
  rewrite Hlogin. simpl. rewrite Hrole. simpl.
  repeat split. now rewrite <- app_assoc.
Qed.

(** A recruiter's session does not sign a candidate in. *)
Lemma candidate_login_rejects_other_roles_witness :
  localStorage (snd (run (handleSubmit Samples.recruiter_backend initial)
                       initial Samples.fresh))
  = localStorage Samples.fresh.
Proof.
  apply (candidate_login_rejects_other_roles Samples.recruiter_backend initial
           Samples.fresh Samples.recruiter_session).
  - reflexivity.
  - intros H. vm_compute in H. discriminate H.
Defined.

End LoginFacts.

Section RegisterFacts.
Import Js Types Api.

(** The requests of a trace that is written out. *)
Ltac requests_of_trace :=
  unfold requests, emit; simpl; rewrite ?flat_map_app; simpl;
  rewrite ?app_nil_r, <- ?app_assoc; reflexivity.

Lemma app_cons_neq {A} (l l' : list A) (x : A) : l ++ x :: l' <> l.
Proof.
  intros H. apply (f_equal (@List.length A)) in H.
  rewrite length_app in H. simpl in H. lia.
Qed.

Lemma candidate_valid_dec (f : CandidateRegister.FormData) :
  CandidateRegister.valid f <->
  str_eqb (CandidateRegister.password f) (CandidateRegister.confirmPassword f) = true
  /\ (List.length (CandidateRegister.password f) <? 8)%nat = false.
Proof.
  unfold CandidateRegister.valid. rewrite str_eqb_eq, Nat.ltb_ge. tauto.
Qed.

Lemma recruiter_valid_dec (f : RecruiterRegister.FormData) :
  RecruiterRegister.valid f <->
  str_eqb (RecruiterRegister.password f) (RecruiterRegister.confirmPassword f) = true
  /\ (List.length (RecruiterRegister.password f) <? 8)%nat = false.
Proof.
  unfold RecruiterRegister.valid. rewrite str_eqb_eq, Nat.ltb_ge. tauto.
Qed.

Lemma candidate_submit_invalid (server : Server) (st : CandidateRegister.State)
  (w : World) :
  ~ CandidateRegister.valid (CandidateRegister.formData st) ->
  exists msg, truthy msg = true /\
    run (CandidateRegister.handleSubmit server st) st w =
    (CandidateRegister.with_error msg st, emit PreventDefault w).
Proof.
  rewrite candidate_valid_dec. intros H.
  unfold run, CandidateRegister.handleSubmit, when, bind, perform,
    CandidateRegister.setError, setState, return_, ret.
  destruct (str_eqb _ _) eqn:He; simpl.
  - destruct (_ <? _)%nat eqn:Hl; simpl.
    + eexists; split; [|reflexivity]. reflexivity.
    + exfalso. apply H. now split.
  - eexists; split; [|reflexivity]. reflexivity.
Qed.

Lemma candidate_submit_valid (server : Server) (st : CandidateRegister.State)
  (w : World) :
  CandidateRegister.valid (CandidateRegister.formData st) ->
  exists rest,
    requests (snd (run (CandidateRegister.handleSubmit server st) st w)) =
    requests w ++
    POST_auth_register_candidate
      (CandidateRegister.email (CandidateRegister.formData st))
      (CandidateRegister.password (CandidateRegister.formData st))
      (CandidateRegister.first_name (CandidateRegister.formData st))
      (CandidateRegister.last_name (CandidateRegister.formData st)) :: rest.
Proof.
  rewrite candidate_valid_dec. intros [He Hl].
  unfold run, CandidateRegister.handleSubmit, when, bind, perform,
    CandidateRegister.setError, CandidateRegister.setLoading, setState, return_, ret.
  rewrite He, Hl. simpl.
  unfold try_catch_finally, bind, await, authApi_getCurrentUser, bind, getWorld,
    await, localStorage_set_access_token, perform, CandidateRegister.setError,
    CandidateRegister.setLoading, setState, ret.
  destruct (registerCandidate server _ _ _ _) as [resp|err]; simpl.
  - destruct (getCurrentUser server _) as [u|err]; simpl.
    + exists [GET_auth_me]. requests_of_trace.
    + exists [GET_auth_me]. rewrite requests_on_rejected. requests_of_trace.
  - exists []. rewrite requests_on_rejected. requests_of_trace.
Qed.

Lemma recruiter_submit_invalid (server : Server) (st : RecruiterRegister.State)
  (w : World) :
  ~ RecruiterRegister.valid (RecruiterRegister.formData st) ->
  exists msg, truthy msg = true /\
    run (RecruiterRegister.handleSubmit server st) st w =
    (RecruiterRegister.with_error msg st, emit PreventDefault w).
Proof.
  rewrite recruiter_valid_dec. intros H.
  unfold run, RecruiterRegister.handleSubmit, when, bind, perform,
    RecruiterRegister.setError, setState, return_, ret.
  destruct (str_eqb _ _) eqn:He; simpl.
  - destruct (_ <? _)%nat eqn:Hl; simpl.
    + eexists; split; [|reflexivity]. reflexivity.
    + exfalso. apply H. now split.
  - eexists; split; [|reflexivity]. reflexivity.
Qed.

Lemma recruiter_submit_valid (server : Server) (st : RecruiterRegister.State)
  (w : World) :
  RecruiterRegister.valid (RecruiterRegister.formData st) ->
  exists rest,
    requests (snd (run (RecruiterRegister.handleSubmit server st) st w)) =
    requests w ++
    POST_auth_register_recruiter
      (RecruiterRegister.email (RecruiterRegister.formData st))
      (RecruiterRegister.password (RecruiterRegister.formData st))
      (RecruiterRegister.company_name (RecruiterRegister.formData st))
      (RecruiterRegister.job_title (RecruiterRegister.formData st)) :: rest.
Proof.
  rewrite recruiter_valid_dec. intros [He Hl].
  unfold run, RecruiterRegister.handleSubmit, when, bind, perform,
    RecruiterRegister.setError, RecruiterRegister.setLoading, setState, return_, ret.
  rewrite He, Hl. simpl.
  unfold try_catch_finally, bind, await, authApi_getCurrentUser, bind, getWorld,
    await, localStorage_set_access_token, perform, RecruiterRegister.setError,
    RecruiterRegister.setLoading, setState, ret.
  destruct (registerRecruiter server _ _ _ _) as [resp|err]; simpl.
  - destruct (getCurrentUser server _) as [u|err]; simpl.
    + exists [GET_auth_me]. requests_of_trace.
    + exists [GET_auth_me]. rewrite requests_on_rejected. requests_of_trace.
  - exists []. rewrite requests_on_rejected. requests_of_trace.
Qed.

(** C9: in both registration forms, when the password differs from its
    confirmation or is shorter than 8, [handleSubmit] sets an error message
    and stops: the rest of the state is kept, localStorage is kept and no
    request is sent; so a registration request is sent only from a form
    whose password equals the confirmation and has length at least 8, and
    from such a form it is sent. *)
Theorem registration_guard (server : Server)
  (c : CandidateRegister.State) (r : RecruiterRegister.State) (w : World) :
  (~ CandidateRegister.valid (CandidateRegister.formData c) ->
     exists msg, truthy msg = true
       /\ fst (run (CandidateRegister.handleSubmit server c) c w)
          = CandidateRegister.with_error msg c
       /\ localStorage (snd (run (CandidateRegister.handleSubmit server c) c w))
          = localStorage w
       /\ requests (snd (run (CandidateRegister.handleSubmit server c) c w))
          = requests w)
  /\ (~ RecruiterRegister.valid (RecruiterRegister.formData r) ->
     exists msg, truthy msg = true
       /\ fst (run (RecruiterRegister.handleSubmit server r) r w)
          = RecruiterRegister.with_error msg r
       /\ localStorage (snd (run (RecruiterRegister.handleSubmit server r) r w))
          = localStorage w
       /\ requests (snd (run (RecruiterRegister.handleSubmit server r) r w))
          = requests w)
  /\ (requests (snd (run (CandidateRegister.handleSubmit server c) c w)) <> requests w
      <-> CandidateRegister.valid (CandidateRegister.formData c))
  /\ (requests (snd (run (RecruiterRegister.handleSubmit server r) r w)) <> requests w
      <-> RecruiterRegister.valid (RecruiterRegister.formData r)).
Proof.
  assert (Hc : ~ CandidateRegister.valid (CandidateRegister.formData c) ->
     exists msg, truthy msg = true
       /\ fst (run (CandidateRegister.handleSubmit server c) c w)
          = CandidateRegister.with_error msg c
       /\ localStorage (snd (run (CandidateRegister.handleSubmit server c) c w))
          = localStorage w
       /\ requests (snd (run (CandidateRegister.handleSubmit server c) c w))
          = requests w).
  { intros H. destruct (candidate_submit_invalid server c w H) as [msg [Hm Hrun]].
    exists msg. rewrite Hrun. simpl. repeat split; try assumption.
    rewrite requests_emit. simpl. apply app_nil_r. }
  assert (Hr : ~ RecruiterRegister.valid (RecruiterRegister.formData r) ->
     exists msg, truthy msg = true
       /\ fst (run (RecruiterRegister.handleSubmit server r) r w)
          = RecruiterRegister.with_error msg r
       /\ localStorage (snd (run (RecruiterRegister.handleSubmit server r) r w))
          = localStorage w
       /\ requests (snd (run (RecruiterRegister.handleSubmit server r) r w))
          = requests w).
  { intros H. destruct (recruiter_submit_invalid server r w H) as [msg [Hm Hrun]].
    exists msg. rewrite Hrun. simpl. repeat split; try assumption.
    rewrite requests_emit. simpl. apply app_nil_r. }
  assert (Dc : CandidateRegister.valid (CandidateRegister.formData c)
               \/ ~ CandidateRegister.valid (CandidateRegister.formData c)).
  { rewrite candidate_valid_dec.
    destruct (str_eqb _ _); [|right; intros [H _]; discriminate H].
    destruct (_ <? _)%nat; [right; intros [_ H]; discriminate H | left; now split]. }
  assert (Dr : RecruiterRegister.valid (RecruiterRegister.formData r)
               \/ ~ RecruiterRegister.valid (RecruiterRegister.formData r)).
  { rewrite recruiter_valid_dec.
    destruct (str_eqb _ _); [|right; intros [H _]; discriminate H].
    destruct (_ <? _)%nat; [right; intros [_ H]; discriminate H | left; now split]. }
  split; [exact Hc|]. split; [exact Hr|]. split; split.
  - intros Hreq. destruct Dc as [Hv|Hn]; [exact Hv|].
    destruct (Hc Hn) as [msg [_ [_ [_ H]]]]. contradiction.
  - intros Hv. destruct (candidate_submit_valid server c w Hv) as [rest ->].
    apply app_cons_neq.
  - intros Hreq. destruct Dr as [Hv|Hn]; [exact Hv|].
    destruct (Hr Hn) as [msg [_ [_ [_ H]]]]. contradiction.
  - intros Hv. destruct (recruiter_submit_valid server r w Hv) as [rest ->].
    apply app_cons_neq.
Qed.

(** The empty forms, whose password has length 0, send nothing. *)
Lemma registration_guard_witness :
  requests (snd (run (CandidateRegister.handleSubmit Samples.offline
                        CandidateRegister.initial)
                   CandidateRegister.initial Samples.fresh)) = []
  /\ requests (snd (run (RecruiterRegister.handleSubmit Samples.offline
                           RecruiterRegister.initial)
                      RecruiterRegister.initial Samples.fresh)) = [].
Proof.
  destruct (registration_guard Samples.offline CandidateRegister.initial
              RecruiterRegister.initial Samples.fresh) as [Hc [Hr _]].
  split.
  - destruct Hc as [msg [_ [_ [_ H]]]]; [|exact H].
    intros [_ H]. simpl in H. lia.
  - destruct Hr as [msg [_ [_ [_ H]]]]; [|exact H].
    intros [_ H]. simpl in H. lia.
Defined.

End RegisterFacts.

(* ================================================================== *)
(** * Sorting with a comparator                                         *)
(* ================================================================== *)

Section ArraySortFacts.
Import Js.

Context {A : Type} (compareFn : A -> A -> Q).

Lemma sort_insert_perm (x : A) (l : list A) :
  Permutation (sort_insert compareFn x l) (x :: l).
Proof.
  induction l as [|y l IH]; simpl.
  - apply Permutation_refl.
  - destruct (Qle_bool (compareFn x y) 0).
    + apply Permutation_refl.
    + eapply Permutation_trans; [apply perm_skip, IH | apply perm_swap].
Qed.

(** Sorting rearranges: nothing is added, dropped or duplicated. *)
Lemma Array_sort_perm (l : list A) : Permutation (Array_sort compareFn l) l.
Proof.
  induction l as [|x l IH]; simpl.
  - apply perm_nil.
  - eapply Permutation_trans; [apply sort_insert_perm | apply perm_skip, IH].
Qed.

Section Ordered.

(** [R] is an order the comparator decides: a non-positive comparison
    puts its first argument first, a positive one its second. *)
Variable R : A -> A -> Prop.
Hypothesis R_first : forall x y, Qle_bool (compareFn x y) 0 = true -> R x y.
Hypothesis R_second : forall x y, Qle_bool (compareFn x y) 0 = false -> R y x.
Hypothesis R_trans : forall x y z, R x y -> R y z -> R x z.

Lemma sort_insert_sorted (x : A) (l : list A) :
  StronglySorted R l -> StronglySorted R (sort_insert compareFn x l).
Proof.
  induction l as [|y l IH]; intros Hl; simpl.
  - constructor; constructor.
  - apply StronglySorted_inv in Hl as [Hl Hy].
    destruct (Qle_bool (compareFn x y) 0) eqn:E.
    + constructor; [constructor; assumption|].
      constructor; [now apply R_first|].
      apply R_first in E. eapply Forall_impl; [|exact Hy].
      intros z Hz. now apply R_trans with y.
    + constructor; [now apply IH|].
      apply Forall_forall. intros z Hz.
      apply (Permutation_in _ (sort_insert_perm x l)) in Hz.
      destruct Hz as [<-|Hz]; [now apply R_second|].
      rewrite Forall_forall in Hy. now apply Hy.
Qed.

Lemma Array_sort_sorted (l : list A) : StronglySorted R (Array_sort compareFn l).
Proof.
  induction l as [|x l IH]; simpl.
  - constructor.
  - now apply sort_insert_sorted.
Qed.

End Ordered.

Section Stable.

(** [p] picks elements that the comparator does not put apart. *)
Variable p : A -> bool.
Hypothesis p_tied :
  forall x y, p x = true -> p y = true -> Qle_bool (compareFn x y) 0 = true.

Lemma filter_sort_insert (x : A) (l : list A) :
  filter p (sort_insert compareFn x l) = filter p (x :: l).
Proof.
  induction l as [|y l IH]; simpl.
  - reflexivity.
  - destruct (Qle_bool (compareFn x y) 0) eqn:E; [reflexivity|].
    simpl. rewrite IH. simpl.
    destruct (p x) eqn:Hx; [|reflexivity].
    destruct (p y) eqn:Hy; [|reflexivity].
    rewrite (p_tied x y Hx Hy) in E. discriminate E.
Qed.

(** The sort is stable: elements the comparator ties keep their order. *)
Lemma Array_sort_stable (l : list A) :
  filter p (Array_sort compareFn l) = filter p l.
Proof.
  induction l as [|x l IH]; simpl.
  - reflexivity.
  - rewrite filter_sort_insert. simpl. now rewrite IH.
Qed.

End Stable.

End ArraySortFacts.

(* ================================================================== *)
(** * The result list                                                   *)
(* ================================================================== *)

Section SearchResultsFacts.
Import Js Types Api SearchResults Ranking.

Lemma similarity_desc_first (a b : SearchResult) :
  Qle_bool (compareFn similarity desc a b) 0 = true -> score_descending a b.
Proof.
  unfold compareFn, score_descending. rewrite Qle_bool_iff. intros H. lra.
Qed.

Lemma similarity_desc_second (a b : SearchResult) :
  Qle_bool (compareFn similarity desc a b) 0 = false -> score_descending b a.
Proof.
  unfold compareFn, score_descending. intros H.
  destruct (Qlt_le_dec 0 (- (similarity_score a - similarity_score b))) as [Hlt|Hle].
  - lra.
  - apply Qle_bool_iff in Hle. congruence.
Qed.

Lemma similarity_desc_tied (q : Q) (a b : SearchResult) :
  Qeq_bool (similarity_score a) q = true ->
  Qeq_bool (similarity_score b) q = true ->
  Qle_bool (compareFn similarity desc a b) 0 = true.
Proof.
  intros Ha Hb. apply Qeq_bool_iff in Ha, Hb.
  unfold compareFn. apply Qle_bool_iff. lra.
Qed.

Lemma js_lt_at_least (x : Q) (t : number) : js_lt x t = false <-> at_least x t.
Proof.
  destruct t as [q| |]; simpl.
  - rewrite negb_false_iff. apply Qle_bool_iff.
  - split; [discriminate | intros []].
  - split; trivial.
Qed.

Lemma keeps_passes (m : Z) (e : jsstring) (r : SearchResult) :
  keeps (Some m) e r = true <-> passes m e r.
Proof.
  unfold keeps, passes.
  destruct (js_lt (similarity_score r) (js_div (inject_Z m) 100)) eqn:Hs.
  - split; [discriminate|]. intros [H _].
    apply js_lt_at_least in H. congruence.
  - apply js_lt_at_least in Hs.
    destruct e as [|c e]; simpl.
    + split; [|reflexivity]. intros _. split; [exact Hs|]. intros H. now elim H.
    + destruct (experience_level r) as [l|]; simpl.
      * destruct (str_eqb l (c :: e)) eqn:He; simpl.
        -- apply str_eqb_eq in He. subst l. split; [|reflexivity].
           intros _. split; [exact Hs | reflexivity].
        -- apply str_eqb_neq in He. split; [discriminate|].
           intros [_ H]. exfalso. apply He.
           assert (Hl : Some l = Some (c :: e)) by (apply H; discriminate).
           now injection Hl.
      * split; [discriminate|]. intros [_ H].
        assert (Hl : @None jsstring = Some (c :: e)) by (apply H; discriminate).
        discriminate Hl.
Qed.

(** For the positions of the slider the quotient is finite: the double
    nearest to [m / 100]. *)
Lemma slider_threshold (m : Z) :
  (0 <= m <= 100)%Z ->
  js_div (inject_Z m) 100 = Finite (nearest (inject_Z m / 100))
  /\ 0 <= nearest (inject_Z m / 100) /\ nearest (inject_Z m / 100) <= 1.
Proof.
  intros [H0 H100]. apply (to_double_between 0 1).
  - reflexivity.
  - vm_compute. reflexivity.
  - vm_compute. discriminate.
  - vm_compute. discriminate.
  - apply Qle_shift_div_l; [reflexivity|]. rewrite Qmult_0_l.
    change 0 with (inject_Z 0). now rewrite <- Zle_Qle.
  - apply Qle_shift_div_r; [reflexivity|]. rewrite Qmult_1_l.
    change 100 with (inject_Z 100). now rewrite <- Zle_Qle.
Qed.

(** With the slider at 29 a result whose score is the double 0.29 is kept:
    the quotient 29 / 100 is that same double, which is below the exact
    29/100. *)
Lemma kept_at_the_threshold :
  keeps (Some 29%Z) empty_str (Samples.hit "a" (nearest (29 # 100)) None) = true
  /\ nearest (29 # 100) < 29 # 100.
Proof. split; vm_compute; reflexivity. Qed.

End SearchResultsFacts.

Section SearchResultsClaims.
Import Js Types Api SearchResults Ranking.

(** C2, as the code has it: with the sort the list starts with (by
    similarity, high to low), whatever the two filters are set to, the
    displayed results are ordered by similarity_score descending, and
    results of equal score stand in the order they have in the input list:
    the sort is stable and does not look at candidate ids. *)
Theorem ranking_by_score_stable
  (results : list SearchResult) (m : option Z) (e : jsstring) (modal : CVModalState) :
  let st := {| sortBy := similarity; sortOrder := desc; minSimilarity := m;
               experienceFilter := e; cvModal := modal |} in
  StronglySorted score_descending (filteredAndSortedResults results st)
  /\ forall q, with_score q (filteredAndSortedResults results st)
               = with_score q (filter (keeps m e) results).
Proof.
  intros st. unfold filteredAndSortedResults, st; simpl. split.
  - apply Array_sort_sorted.
    + apply similarity_desc_first.
    + apply similarity_desc_second.
    + unfold score_descending. intros x y z Hxy Hyz. lra.
  - intros q. unfold with_score. apply Array_sort_stable.
    apply similarity_desc_tied.
Qed.

(** C2 as stated fails: two results with the same score come out in the
    order of the input, here candidate b before candidate a; the same two
    results given in the other order come out in the other order; and once
    the user has chosen the order low to high, the lower score comes
    first. *)
Lemma ranking_ignores_candidate_id :
  ~ ranked_by_score_then_id
      (filteredAndSortedResults
         [Samples.hit "b" (1 # 2) None; Samples.hit "a" (1 # 2) None] initial)
  /\ filteredAndSortedResults
       [Samples.hit "b" (1 # 2) None; Samples.hit "a" (1 # 2) None] initial
     <> filteredAndSortedResults
          [Samples.hit "a" (1 # 2) None; Samples.hit "b" (1 # 2) None] initial
  /\ ~ ranked_by_score_then_id
         (filteredAndSortedResults
            [Samples.hit "a" (9 # 10) None; Samples.hit "b" (1 # 10) None]
            (with_sortOrder asc initial)).
Proof.
  assert (E : filteredAndSortedResults
                [Samples.hit "b" (1 # 2) None; Samples.hit "a" (1 # 2) None] initial
              = [Samples.hit "b" (1 # 2) None; Samples.hit "a" (1 # 2) None])
    by (vm_compute; reflexivity).
  assert (F : filteredAndSortedResults
                [Samples.hit "a" (9 # 10) None; Samples.hit "b" (1 # 10) None]
                (with_sortOrder asc initial)
              = [Samples.hit "b" (1 # 10) None; Samples.hit "a" (9 # 10) None])
    by (vm_compute; reflexivity).
  split; [|split].
  - rewrite E. intros H. apply StronglySorted_inv in H as [_ H].
    apply Forall_inv in H. destruct H as [H | [_ H]].
    + vm_compute in H. discriminate H.
    + vm_compute in H. discriminate H.
  - intros H. vm_compute in H. discriminate H.
  - rewrite F. intros H. apply StronglySorted_inv in H as [_ H].
    apply Forall_inv in H. destruct H as [H | [H _]].
    + vm_compute in H. discriminate H.
    + vm_compute in H. discriminate H.
Qed.

(** C10: whatever the sort settings, the displayed list is a rearrangement
    of the results that pass the two filters, a result passing when its
    score is at least m / 100, the quotient as the program computes it
    (the double nearest to the exact one), and, for a non-empty experience
    filter e, its experience level is e; nothing is made up, and the list
    is never longer than the input. *)
Theorem client_filtering_sound
  (results : list SearchResult) (by_ : sortBy_t) (order : sortOrder_t)
  (m : Z) (e : jsstring) (modal : CVModalState) :
  let st := {| sortBy := by_; sortOrder := order; minSimilarity := Some m;
               experienceFilter := e; cvModal := modal |} in
  Permutation (filteredAndSortedResults results st)
              (filter (keeps (Some m) e) results)
  /\ (forall r, keeps (Some m) e r = true <-> passes m e r)
  /\ (forall r, In r (filteredAndSortedResults results st)
                <-> In r results /\ passes m e r)
  /\ (List.length (filteredAndSortedResults results st) <= List.length results)%nat.
Proof.
  intros st.
  assert (P : Permutation (filteredAndSortedResults results st)
                          (filter (keeps (Some m) e) results))
    by apply Array_sort_perm.
  split; [exact P|]. split; [apply keeps_passes|]. split.
  - intros r. rewrite <- keeps_passes, <- filter_In. split; intros H.
    + now apply (Permutation_in _ P).
    + now apply (Permutation_in _ (Permutation_sym P)).
  - rewrite (Permutation_length P). apply filter_length_le.
Qed.

End SearchResultsClaims.

Section CVPrivacy.
Import Js Types Api SearchResults.

Lemma step_requests (sw : State * World) (e : event) :
  requests (snd (step sw e)) = requests (snd sw) ++ cv_requests [e].
Proof.
  destruct sw as [s w].
  destruct e as [v|v|value|value|result server|]; simpl;
    try (now rewrite app_nil_r).
  unfold run, handleViewDetails, try_catch, try_catch_finally, bind, await,
    setCvModal, setState, ret.
  destruct (getCandidateCV server (candidate_id result)) as [resp|err]; simpl.
  - now rewrite requests_emit.
  - now rewrite requests_on_rejected, requests_emit.
Qed.

Lemma steps_requests (es : list event) (sw : State * World) :
  requests (snd (steps sw es)) = requests (snd sw) ++ cv_requests es.
Proof.
  revert sw. induction es as [|e es IH]; intros sw.
  - simpl. now rewrite app_nil_r.
  - change (steps sw (e :: es)) with (steps (step sw e) es).
    rewrite IH, step_requests, <- app_assoc. f_equal.
    unfold cv_requests. simpl. now rewrite app_nil_r.
Qed.

Lemma steps_snoc (es : list event) (e : event) (sw : State * World) :
  steps sw (es ++ [e]) = step (steps sw es) e.
Proof. unfold steps. now rewrite fold_left_app. Qed.

Lemma steps_cv_text (es : list event) (w : World) :
  cv_text_fetched es (fst (steps (initial, w) es)).
Proof.
  induction es as [|e es IH] using rev_ind.
  - now left.
  - rewrite steps_snoc. destruct (steps (initial, w) es) as [s w'].
    simpl in IH.
    assert (Hkeep : cvContent (cvModal s) = cvContent (cvModal s) ->
                    cv_text_fetched (es ++ [e]) s).
    { intros _. destruct IH as [IH|[result [server [response [Hin H]]]]];
        [now left | right].
      exists result, server, response. split; [|exact H].
      apply in_or_app. now left. }
    destruct e as [v|v|value|value|result server|]; simpl;
      try (now apply Hkeep).
    + unfold run, handleViewDetails, try_catch, try_catch_finally, bind, await,
        setCvModal, setState, ret.
      destruct (getCandidateCV server (candidate_id result)) as [resp|err] eqn:E;
        simpl.
      * right. exists result, server, resp. split; [|now split].
        apply in_or_app. right. now left.
      * now left.
    + now left.
Qed.

(** C6: a search result is made of its candidate id, score, name, email,
    matched skills and experience level and of nothing else; the result
    list asks for CV text only through [getCandidateCV], once per
    view-details action and for that result's candidate; and the text the
    modal holds is empty or the answer to such a call. *)
Theorem cv_text_only_on_view_details (es : list event) (w : World) :
  (forall r : SearchResult,
     r = {| candidate_id := candidate_id r;
            similarity_score := similarity_score r;
            sr_first_name := sr_first_name r;
            sr_last_name := sr_last_name r;
            sr_email := sr_email r;
            matched_skills := matched_skills r;
            experience_level := experience_level r |})
  /\ requests (snd (steps (initial, w) es)) = requests w ++ cv_requests es
  /\ (cvContent (cvModal (fst (steps (initial, w) es))) = empty_str
      \/ exists result server response,
           In (ViewDetails result server) es
           /\ getCandidateCV server (candidate_id result) = Resolved response
           /\ cvContent (cvModal (fst (steps (initial, w) es))) = cv_content response).
Proof.
  split; [now intros []|]. split.
  - apply (steps_requests es (initial, w)).
  - apply steps_cv_text.
Qed.

End CVPrivacy.

(* ================================================================== *)
(** * The bound on search results                                       *)
(* ================================================================== *)

Section SearchBound.
Import Js Types SearchOrchestrator Ranking.

Lemma surviving_scores
  (resolve : jsstring -> option Profile) (hits : list IndexHit) :
  Forall (fun h => 0 <= score h /\ score h <= 1) hits ->
  Forall in_unit_interval (surviving resolve hits).
Proof.
  induction 1 as [|h hits Hh Hhits IH]; simpl.
  - constructor.
  - unfold enrich. destruct (resolve (vector_key h)) as [p|]; [|exact IH].
    destruct (str_eqb (profile_status p) (lit "completed")); [|exact IH].
    constructor; [exact Hh | exact IH].
Qed.

Lemma firstn_Forall {A} (P : A -> Prop) (n : nat) (l : list A) :
  Forall P l -> Forall P (firstn n l).
Proof.
  revert l. induction n as [|n IH]; intros l Hl; simpl.
  - constructor.
  - destruct Hl as [|x l Hx Hl]; constructor; [exact Hx | now apply IH].
Qed.

Lemma clamp_limit_range (limit : Z) : (1 <= clamp_limit limit <= 50)%Z.
Proof. unfold clamp_limit. lia. Qed.

Lemma clamp_limit_valid (limit : Z) : (1 <= limit)%Z -> (clamp_limit limit <= limit)%Z.
Proof. unfold clamp_limit. lia. Qed.

(** A search with requirements, a working embedder and a reachable index
    answers with a result list. *)
Lemma search_answers (Vector : Type)
  (embed : jsstring -> option Vector)
  (query : Vector -> Z -> Filters -> option (list IndexHit))
  (resolve : jsstring -> option Profile)
  (requirements : jsstring) (filters : Filters) (L : Z)
  (v : Vector) (found : list IndexHit) :
  truthy requirements = true ->
  embed requirements = Some v ->
  query v (clamp_limit L) filters = Some found ->
  search Vector embed query resolve requirements filters L =
  inr (firstn (Z.to_nat (clamp_limit L)) (rerank (surviving resolve found))).
Proof.
  intros Hr He Hq. unfold search. now rewrite Hr, He, Hq.
Qed.

(** C7, amended: a search with limit L answers with at most as many hits
    as the limit step 1 has brought into its range, 1 to 50, hence with at
    most L hits for every L from 1 on, and, the index returning scores in
    [0, 1], every similarity_score it returns lies in [0, 1]. *)
Theorem search_result_bound (Vector : Type)
  (embed : jsstring -> option Vector)
  (query : Vector -> Z -> Filters -> option (list IndexHit))
  (resolve : jsstring -> option Profile)
  (requirements : jsstring) (filters : Filters) (L : Z)
  (hits : list SearchResult) :
  index_in_contract Vector query ->
  search Vector embed query resolve requirements filters L = inr hits ->
  (Z.of_nat (List.length hits) <= clamp_limit L)%Z
  /\ ((1 <= L)%Z -> (Z.of_nat (List.length hits) <= L)%Z)
  /\ Forall (fun r => 0 <= similarity_score r /\ similarity_score r <= 1) hits.
Proof.
  intros Hindex Hsearch. unfold search in Hsearch.
  destruct (negb (truthy requirements)); [discriminate Hsearch|].
  destruct (embed requirements) as [v|]; [|discriminate Hsearch].
  destruct (query v (clamp_limit L) filters) as [found|] eqn:Hq;
    [|discriminate Hsearch].
  injection Hsearch as <-.
  assert (Hlen : (Z.of_nat (List.length
                     (firstn (Z.to_nat (clamp_limit L))
                        (rerank (surviving resolve found)))) <= clamp_limit L)%Z).
  { pose proof (firstn_le_length (Z.to_nat (clamp_limit L))
                  (rerank (surviving resolve found))) as H.
    pose proof (clamp_limit_range L). lia. }
  split; [exact Hlen|]. split.
  - intros HL. pose proof (clamp_limit_valid L HL). lia.
  - apply firstn_Forall.
    apply (Permutation_Forall
             (Permutation_sym (Array_sort_perm _ (surviving resolve found)))).
    apply surviving_scores. exact (Hindex v _ _ _ Hq).
Qed.

(** A search with limit 1 over an index with two live entries answers
    with one hit. *)
Lemma search_result_bound_witness :
  exists hits,
    search unit (fun _ => Some tt) Samples.two_hits Samples.all_completed
      (lit "Python backend engineer") [] 1 = inr hits
    /\ (Z.of_nat (List.length hits) <= 1)%Z.
Proof.
  eexists. split; [vm_compute; reflexivity|].
  eapply (search_result_bound unit (fun _ => Some tt) Samples.two_hits
            Samples.all_completed (lit "Python backend engineer") [] 1).
  - intros v k f hits H. injection H as <-.
    repeat constructor; unfold Qle; simpl; lia.
  - vm_compute. reflexivity.
  - lia.
Defined.

(** C7 as stated fails for a limit below 1: step 1 brings the limit 0 to
    1, and over an index in contract with two live entries the search with
    limit 0 answers with one hit, the one with the higher score. *)
Lemma search_limit_zero_returns_a_hit :
  index_in_contract unit Samples.two_hits
  /\ (exists hits,
        search unit (fun _ => Some tt) Samples.two_hits Samples.all_completed
          (lit "Python backend engineer") [] 0 = inr hits
        /\ List.map candidate_id hits = [lit "k-1"]
        /\ ~ (Z.of_nat (List.length hits) <= 0)%Z)
  /\ ~ (forall (L : Z) (hits : list SearchResult),
          search unit (fun _ => Some tt) Samples.two_hits Samples.all_completed
            (lit "Python backend engineer") [] L = inr hits ->
          (Z.of_nat (List.length hits) <= L)%Z).
Proof.
  assert (E : exists hits,
             search unit (fun _ => Some tt) Samples.two_hits
               Samples.all_completed (lit "Python backend engineer") [] 0
             = inr hits
             /\ List.map candidate_id hits = [lit "k-1"]
             /\ ~ (Z.of_nat (List.length hits) <= 0)%Z).
  { eexists. split; [vm_compute; reflexivity|].
    split; [reflexivity|]. simpl. lia. }
  split; [|split].
  - intros v k f hits H. injection H as <-.
    repeat constructor; unfold Qle; simpl; lia.
  - exact E.
  - intros H. destruct E as [hits [Hs [_ Hn]]]. exact (Hn (H 0%Z hits Hs)).
Qed.

(** What the page shows of a bounded answer is bounded the same way. *)
Lemma displayed_results_bounded (results : list SearchResult)
  (st : SearchResults.State) (L : Z) :
  (Z.of_nat (List.length results) <= L)%Z ->
  Forall in_unit_interval results ->
  (Z.of_nat (List.length (SearchResults.filteredAndSortedResults results st)) <= L)%Z
  /\ Forall in_unit_interval (SearchResults.filteredAndSortedResults results st).
Proof.
  intros Hlen Hscores. unfold SearchResults.filteredAndSortedResults.
  set (kept := filter _ results).
  pose proof (Array_sort_perm
                (SearchResults.compareFn (SearchResults.sortBy st)
                   (SearchResults.sortOrder st)) kept) as P.
  split.
  - rewrite (Permutation_length P).
    pose proof (filter_length_le
                  (SearchResults.keeps (SearchResults.minSimilarity st)
                     (SearchResults.experienceFilter st)) results).
    fold kept in H. lia.
  - apply (Permutation_Forall (Permutation_sym P)).
    apply Forall_forall. intros r Hr. apply filter_In in Hr as [Hr _].
    rewrite Forall_forall in Hscores. now apply Hscores.
Qed.

(** X20: a score in [0, 1] is shown as a whole percentage from 0 to 100. *)
Lemma formatScore_percent (score : Q) :
  0 <= score -> score <= 1 ->
  exists n : Z,
    SearchResults.formatScore score = Finite (inject_Z n) /\ (0 <= n <= 100)%Z.
Proof.
  intros H0 H1. unfold SearchResults.formatScore, js_mul, Math_round_number.
  assert (E0 : nearest 0 == 0) by reflexivity.
  assert (E100 : nearest 100 == 100) by (vm_compute; reflexivity).
  assert (Hmin : - max_double <= 0) by (vm_compute; discriminate).
  assert (Hmax : 100 <= max_double) by (vm_compute; discriminate).
  assert (Hlo' : 0 <= score * 100) by lra.
  assert (Hhi' : score * 100 <= 100) by lra.
  destruct (to_double_between 0 100 (score * 100) E0 E100 Hmin Hmax Hlo' Hhi')
    as [E [Hlo Hhi]].
  rewrite E. eexists. split; [reflexivity|]. unfold Math_round. split.
  - apply Z.le_trans with (Qfloor 0); [discriminate|].
    apply Qfloor_resp_le. lra.
  - apply Z.le_trans with (Qfloor (100 + (1 # 2))); [|discriminate].
    apply Qfloor_resp_le. lra.
Qed.

End SearchBound.

(* ================================================================== *)
(** * Further properties: uploading a CV                                *)
(* ================================================================== *)

Section UploadFlow.
Import Js Types Api CVUpload.
Local Open Scope Z_scope.

(** The message shown after a failed call is never empty: it is the
    detail of the server when there is a non-empty one, the fallback of
    the handler otherwise. *)
Lemma detail_or_truthy (err : AxiosError) (fallback : jsstring) :
  truthy fallback = true -> truthy (detail_or err fallback) = true.
Proof.
  intros H. unfold detail_or, opt_or_else, or_else.
  destruct (response err) as [r|]; [|exact H].
  destruct (data_detail r) as [d|]; [|exact H].
  destruct (truthy d) eqn:E; [exact E | exact H].
Qed.

Lemma onUploadProgress_frame (events : list (Z * Z)) (s : State) :
  selectedFile (onUploadProgress events s) = selectedFile s
  /\ uploading (onUploadProgress events s) = uploading s
  /\ error (onUploadProgress events s) = error s
  /\ success (onUploadProgress events s) = success s.
Proof.
  revert s. induction events as [|[loaded total] rest IH]; intros s; simpl.
  - repeat split.
  - destruct (IH (if total =? 0 then s
                  else with_uploadProgress (progress_of loaded total) s))
      as [H1 [H2 [H3 H4]]].
    rewrite H1, H2, H3, H4. now destruct (total =? 0).
Qed.

(** X1: with a file selected, [handleUpload] sends exactly one request,
    the upload of that file, and whatever the server answers it ends with
    [uploading] false and [uploadProgress] 0. *)
Theorem upload_always_settles (server : Server) (st : State) (w : World) (f : File) :
  selectedFile st = Some f ->
  requests (snd (run (handleUpload server st) st w)) = requests w ++ [POST_cv_upload f]
  /\ uploading (fst (run (handleUpload server st) st w)) = false
  /\ uploadProgress (fst (run (handleUpload server st) st w)) = 0.
Proof.
  intros H. split; [exact (proj1 (handleUpload_sends server st w f H))|].
  unfold run, handleUpload, candidateApi_uploadCV. rewrite H.
  destruct (uploadCV server f) as [events answer].
  unfold try_catch_finally, bind, await_reporting, await, setUploading,
    setUploadProgress, setError, setSuccess, setSelectedFile, setState, perform, ret.
  destruct answer as [msg|err]; simpl; now split.
Qed.

Lemma upload_always_settles_witness :
  requests (snd (run (handleUpload Samples.offline
                        (with_selectedFile (Some Samples.cv_pdf) initial))
                   (with_selectedFile (Some Samples.cv_pdf) initial)
                   Samples.fresh))
  = [POST_cv_upload Samples.cv_pdf].
Proof.
  apply (upload_always_settles Samples.offline
           (with_selectedFile (Some Samples.cv_pdf) initial)
           Samples.fresh Samples.cv_pdf).
  reflexivity.
Defined.

(** X2: when the upload is accepted, the success message is shown, the
    error is empty, the selection is cleared, and after the request the
    file input is emptied and then [onUploadSuccess] is called;
    localStorage is not touched. *)
Theorem upload_success (server : Server) (st : State) (w : World) (f : File)
  (events : list (Z * Z)) (message : jsstring) :
  selectedFile st = Some f ->
  uploadCV server f = (events, Resolved message) ->
  fst (run (handleUpload server st) st w) =
    {| selectedFile := None; uploading := false; uploadProgress := 0;
       error := empty_str; success := lit "CV processed successfully!" |}
  /\ trace (snd (run (handleUpload server st) st w)) =
     trace w ++ [ Request (POST_cv_upload f) (bearer w);
                  FileInput_clear; Callback_onUploadSuccess ]
  /\ localStorage (snd (run (handleUpload server st) st w)) = localStorage w.
Proof.
  intros H Hup. unfold run, handleUpload, candidateApi_uploadCV. rewrite H, Hup.
  unfold try_catch_finally, bind, await_reporting, await, setUploading,
    setUploadProgress, setError, setSuccess, setSelectedFile, setState, perform, ret.
  destruct (onUploadProgress_frame events
              (with_success empty_str
                 (with_error empty_str
                    (with_uploadProgress 0 (with_uploading true st)))))
    as [_ [_ [H3 _]]].
  set (s1 := onUploadProgress events _) in *.
  simpl. split; [|split; [now rewrite <- !app_assoc | reflexivity]].
  unfold with_uploadProgress, with_uploading, with_selectedFile, with_success.
  simpl. now rewrite H3.
Qed.

Lemma upload_success_witness :
  success (fst (run (handleUpload
                       {| login := login Samples.offline;
                          registerCandidate := registerCandidate Samples.offline;
                          registerRecruiter := registerRecruiter Samples.offline;
                          getCurrentUser := getCurrentUser Samples.offline;
                          uploadCV := fun _ => ([(1, 2); (2, 2)], Resolved (lit "ok"));
                          search := search Samples.offline;
                          getCandidateCV := getCandidateCV Samples.offline;
                          saveSearch := saveSearch Samples.offline |}
                       (with_selectedFile (Some Samples.cv_pdf) initial))
                  (with_selectedFile (Some Samples.cv_pdf) initial)
                  Samples.fresh))
  = lit "CV processed successfully!".
Proof.
  destruct (upload_success
              {| login := login Samples.offline;
                 registerCandidate := registerCandidate Samples.offline;
                 registerRecruiter := registerRecruiter Samples.offline;
                 getCurrentUser := getCurrentUser Samples.offline;
                 uploadCV := fun _ => ([(1, 2); (2, 2)], Resolved (lit "ok"));
                 search := search Samples.offline;
                 getCandidateCV := getCandidateCV Samples.offline;
                 saveSearch := saveSearch Samples.offline |}
              (with_selectedFile (Some Samples.cv_pdf) initial)
              Samples.fresh Samples.cv_pdf [(1, 2); (2, 2)] (lit "ok")) as [E _].
  - reflexivity.
  - reflexivity.
  - now rewrite E.
Defined.

(** X3: when the upload is rejected, the file stays selected, the error
    shown is not empty, no success message is shown, and nothing follows
    the request but what the response interceptor does: [onUploadSuccess]
    is not called. *)
Theorem upload_failure_keeps_file (server : Server) (st : State) (w : World)
  (f : File) (events : list (Z * Z)) (err : AxiosError) :
  selectedFile st = Some f ->
  uploadCV server f = (events, Rejected err) ->
  fst (run (handleUpload server st) st w) =
    {| selectedFile := Some f; uploading := false; uploadProgress := 0;
       error := detail_or err (lit "Upload failed. Please try again.");
       success := empty_str |}
  /\ truthy (error (fst (run (handleUpload server st) st w))) = true
  /\ snd (run (handleUpload server st) st w) =
     on_rejected err (emit (Request (POST_cv_upload f) (bearer w)) w)
  /\ ~ In Callback_onUploadSuccess
         (skipn (List.length (trace w)) (trace (snd (run (handleUpload server st) st w)))).
Proof.
  intros H Hup.
  assert (E : run (handleUpload server st) st w =
              ({| selectedFile := Some f; uploading := false; uploadProgress := 0;
                  error := detail_or err (lit "Upload failed. Please try again.");
                  success := empty_str |},
               on_rejected err (emit (Request (POST_cv_upload f) (bearer w)) w))).
  { unfold run, handleUpload, candidateApi_uploadCV. rewrite H, Hup.
    unfold try_catch_finally, bind, await_reporting, await, setUploading,
      setUploadProgress, setError, setSuccess, setSelectedFile, setState, perform, ret.
    destruct (onUploadProgress_frame events
                (with_success empty_str
                   (with_error empty_str
                      (with_uploadProgress 0 (with_uploading true st)))))
      as [H1 [_ [_ H4]]].
    set (s1 := onUploadProgress events _) in *.
    simpl. unfold with_uploadProgress, with_uploading, with_error. simpl.
    rewrite H1, H4. simpl. now rewrite H. }
  rewrite E. simpl. split; [reflexivity|]. split; [now apply detail_or_truthy|].
  split; [reflexivity|].
  unfold on_rejected. destruct (response err) as [r|]; simpl.
  - destruct (status r =? 401); simpl.
    + rewrite <- app_assoc. rewrite skipn_app, skipn_all, Nat.sub_diag. simpl.
      intros [C|[C|[]]]; discriminate C.
    + rewrite skipn_app, skipn_all, Nat.sub_diag. simpl.
      intros [C|[]]; discriminate C.
  - rewrite skipn_app, skipn_all, Nat.sub_diag. simpl.
    intros [C|[]]; discriminate C.
Qed.

Lemma upload_failure_keeps_file_witness :
  selectedFile (fst (run (handleUpload Samples.offline
                            (with_selectedFile (Some Samples.cv_pdf) initial))
                       (with_selectedFile (Some Samples.cv_pdf) initial)
                       Samples.fresh))
  = Some Samples.cv_pdf.
Proof.
  destruct (upload_failure_keeps_file Samples.offline
              (with_selectedFile (Some Samples.cv_pdf) initial)
              Samples.fresh Samples.cv_pdf [] Samples.unreachable) as [E _].
  - reflexivity.
  - reflexivity.
  - now rewrite E.
Defined.

(** X4: of the files dropped on the upload area only the first one
    counts: the state after a drop is the state after selecting that file,
    whatever else was dropped with it; a drop without files changes no
    state; and a drop sends nothing. *)
Theorem drop_takes_first_file (s : State) (w : World) (f : File) (others : list File) :
  fst (run (handleDrop (f :: others)) s w) = fst (run (handleFileSelect (Some f)) s w)
  /\ fst (run (handleDrop []) s w) = s
  /\ requests (snd (run (handleDrop (f :: others)) s w)) = requests w
  /\ requests (snd (run (handleDrop []) s w)) = requests w.
Proof.
  destruct (handleFileSelect_preserves (Some f) s w) as [_ Hw].
  destruct (handleFileSelect_preserves (Some f) s (emit PreventDefault w)) as [_ Hw'].
  unfold run in *. unfold handleDrop, bind, perform. simpl.
  unfold handleFileSelect, when, bind, setError, setSuccess, setSelectedFile,
    setState, return_, ret in *.
  destruct (negb (includes allowedTypes (type f)));
    [|destruct (size f >? maxFileSize)]; simpl;
    (split; [reflexivity|]; split; [reflexivity|];
     split; rewrite requests_emit; simpl; apply app_nil_r).
Qed.




End UploadFlow.

(* ================================================================== *)
(** * Further properties: sessions                                      *)
(* ================================================================== *)

Section Sessions.
Import Js Types Api Session.

(** X6: the response interceptor.  A call rejected with status 401
    removes the access token and the user from localStorage and sends the
    page to /login; a call rejected with any other status, or without a
    response, leaves localStorage as it was; the trace grows by the
    request, sent with the token stored at that moment. *)
Theorem unauthorized_clears_session (S A : Type) (r : request) (err : AxiosError)
  (s : S) (w : World) :
  let w' := snd (run (@await S A r (Rejected err)) s w) in
  fst (run (@await S A r (Rejected err)) s w) = s
  /\ localStorage w' =
     (if unauthorized err then {| ls_access_token := None; ls_user := None |}
      else localStorage w)
  /\ trace w' =
     trace w ++ [Request r (bearer w)]
     ++ (if unauthorized err then [Redirect (lit "/login")] else []).
Proof.
  unfold run, await, on_rejected, unauthorized. simpl. split; [reflexivity|].
  destruct (response err) as [e|]; [|now split].
  destruct (status e =? 401)%Z; simpl; split; try reflexivity.
  now rewrite <- app_assoc.
Qed.

Lemma bearer_stored (token : jsstring) (u : option jsstring) (tr : list effect) :
  bearer {| localStorage := {| ls_access_token := Some token; ls_user := u |};
            trace := tr |} = sent_token token.
Proof. reflexivity. Qed.

Lemma bearer_emit (e : effect) (w : World) : bearer (emit e w) = bearer w.
Proof. reflexivity. Qed.



(** X8: a candidate whose profile cannot be fetched.  When the login
    answers with the role candidate and the profile call is rejected,
    [login] of the auth context is not called and an error is shown; yet
    the token stays in localStorage, unless the rejection was a 401, which
    removes it and redirects. *)
Theorem candidate_login_profile_failure (server : Server) (st : CandidateLogin.State)
  (w : World) (response : AuthResponse) (err : AxiosError) :
  login server (CandidateLogin.email (CandidateLogin.formData st))
               (CandidateLogin.password (CandidateLogin.formData st))
    = Resolved response ->
  user_role response = candidate ->
  getCurrentUser server (sent_token (access_token response)) = Rejected err ->
  fst (run (CandidateLogin.handleSubmit server st) st w) =
    {| CandidateLogin.formData := CandidateLogin.formData st;
       CandidateLogin.loading := false;
       CandidateLogin.error :=
         detail_or err (lit "Login failed. Please check your credentials.") |}
  /\ ls_access_token (localStorage (snd (run (CandidateLogin.handleSubmit server st) st w)))
     = (if unauthorized err then None else Some (access_token response))
  /\ trace (snd (run (CandidateLogin.handleSubmit server st) st w)) =
     trace w ++
     [ PreventDefault;
       Request (POST_auth_login (CandidateLogin.email (CandidateLogin.formData st))
                                (CandidateLogin.password (CandidateLogin.formData st)))
               (bearer w);
       Request GET_auth_me (sent_token (access_token response)) ]
     ++ (if unauthorized err then [Redirect (lit "/login")] else [])
     ++ [Console_log].
Proof.
  intros Hlogin Hrole Hme.
  unfold run, CandidateLogin.handleSubmit, try_catch_finally, bind, await, when,
    perform, authApi_getCurrentUser, bind, getWorld, await,
    localStorage_set_access_token, CandidateLogin.setLoading,
    CandidateLogin.setError, setState, return_, ret.
  rewrite Hlogin. simpl. rewrite Hrole. simpl.
  rewrite !bearer_stored, Hme. simpl.
  unfold on_rejected, unauthorized. destruct (Api.response err) as [e|]; simpl.
  - destruct (status e =? 401)%Z; simpl; repeat split; now rewrite <- !app_assoc.
  - repeat split. now rewrite <- !app_assoc.
Qed.

Lemma candidate_login_profile_failure_witness :
  ls_access_token
    (localStorage (snd (run (CandidateLogin.handleSubmit profile_down
                                CandidateLogin.initial)
                          CandidateLogin.initial Samples.fresh)))
  = Some (lit "token-c").
Proof.
  apply (candidate_login_profile_failure profile_down CandidateLogin.initial
           Samples.fresh candidate_session
           {| response := Some {| status := 500; data_detail := None |} |});
    reflexivity.
Defined.

(** X9: a rejected login stores nothing: an error is shown, the form is
    no longer loading, [login] of the auth context is not called, and
    localStorage is what it was, or emptied when the rejection was a
    401. *)
Theorem candidate_login_rejected (server : Server) (st : CandidateLogin.State)
  (w : World) (err : AxiosError) :
  login server (CandidateLogin.email (CandidateLogin.formData st))
               (CandidateLogin.password (CandidateLogin.formData st))
    = Rejected err ->
  fst (run (CandidateLogin.handleSubmit server st) st w) =
    {| CandidateLogin.formData := CandidateLogin.formData st;
       CandidateLogin.loading := false;
       CandidateLogin.error :=
         detail_or err (lit "Login failed. Please check your credentials.") |}
  /\ truthy (CandidateLogin.error (fst (run (CandidateLogin.handleSubmit server st) st w)))
     = true
  /\ localStorage (snd (run (CandidateLogin.handleSubmit server st) st w)) =
     (if unauthorized err then {| ls_access_token := None; ls_user := None |}
      else localStorage w)
  /\ trace (snd (run (CandidateLogin.handleSubmit server st) st w)) =
     trace w ++
     [ PreventDefault;
       Request (POST_auth_login (CandidateLogin.email (CandidateLogin.formData st))
                                (CandidateLogin.password (CandidateLogin.formData st)))
               (bearer w) ]
     ++ (if unauthorized err then [Redirect (lit "/login")] else [])
     ++ [Console_log].
Proof.
  intros Hlogin.
  unfold run, CandidateLogin.handleSubmit, try_catch_finally, bind, await, when,
    perform, CandidateLogin.setLoading, CandidateLogin.setError, setState,
    return_, ret.
  rewrite Hlogin. simpl.
  split; [reflexivity|]. split; [now apply detail_or_truthy|].
  unfold on_rejected, unauthorized. destruct (Api.response err) as [e|]; simpl.
  - destruct (status e =? 401)%Z; simpl; split; try reflexivity;
      now rewrite <- !app_assoc.
  - split; [reflexivity | now rewrite <- !app_assoc].
Qed.

Lemma candidate_login_rejected_witness :
  localStorage (snd (run (CandidateLogin.handleSubmit Samples.offline
                            CandidateLogin.initial)
                       CandidateLogin.initial Samples.fresh))
  = localStorage Samples.fresh.
Proof.
  apply (candidate_login_rejected Samples.offline CandidateLogin.initial
           Samples.fresh Samples.unreachable).
  reflexivity.
Defined.



End Sessions.

(* ================================================================== *)
(** * Further properties: the search form                               *)
(* ================================================================== *)

Section SearchForm.
Import Js Types Api SearchInterface.

Lemma get_assign_same (o : Filters) (key : jsstring) (v : option jsstring) :
  get (assign o key v) key = v.
Proof.
  unfold get. induction o as [|[k x] o IH]; simpl.
  - now rewrite str_eqb_refl.
  - destruct (str_eqb k key) eqn:E; simpl; now rewrite E.
Qed.

Lemma get_assign_other (o : Filters) (key key' : jsstring) (v : option jsstring) :
  key' <> key -> get (assign o key v) key' = get o key'.
Proof.
  intros Hne. unfold get. induction o as [|[k x] o IH]; simpl.
  - assert (E : str_eqb key key' = false)
      by (apply str_eqb_neq; congruence).
    now rewrite E.
  - destruct (str_eqb k key) eqn:E; simpl.
    + apply str_eqb_eq in E. subst k.
      assert (E' : str_eqb key key' = false)
        by (apply str_eqb_neq; congruence).
      now rewrite E'.
    + destruct (str_eqb k key'); [reflexivity | exact IH].
Qed.

(** X11: a filter input shows what was entered.  After
    [handleFilterChange key value] the value rendered for [key] is [value]
    (an emptied input is stored as undefined and rendered empty again), the
    values rendered for the other filters are what they were, requirements
    and limit are kept, and nothing is sent. *)
Theorem filter_change_round_trip (key value : jsstring) (st : State) (w : World) :
  let st' := fst (run (handleFilterChange key value st) st w) in
  filter_value st' key = value
  /\ (forall key', key' <> key -> filter_value st' key' = filter_value st key')
  /\ (value = empty_str ->
      exists o, filters (searchData st') = Some o /\ get o key = None)
  /\ requirements (searchData st') = requirements (searchData st)
  /\ limit (searchData st') = limit (searchData st)
  /\ snd (run (handleFilterChange key value st) st w) = w.
Proof.
  unfold run, handleFilterChange, setSearchData, setState, filter_value. simpl.
  split; [|split; [|split; [|repeat split]]].
  - rewrite get_assign_same. destruct value; reflexivity.
  - intros key' Hne. rewrite (get_assign_other _ key key' _ Hne).
    destruct (filters (searchData st)); reflexivity.
  - intros ->. eexists. split; [reflexivity|]. apply get_assign_same.
Qed.

Lemma filter_change_round_trip_witness :
  filter_value
    (fst (run (handleFilterChange (lit "location") (lit "Remote") initial)
            initial Samples.fresh))
    (lit "skills")
  = filter_value initial (lit "skills").
Proof.
  destruct (filter_change_round_trip (lit "location") (lit "Remote") initial
              Samples.fresh) as [_ [H _]].
  apply H. intros E. vm_compute in E. discriminate E.
Defined.

(** X12: a search that goes out.  With requirements that are not blank,
    [handleSearch] sends one request, with the search data of the render;
    when it is answered, [onSearchResults] gets the results and that same
    search data, and no error is shown; when it is rejected, an error is
    shown and [onSearchResults] is not called.  In both cases the form
    ends not searching, and its search data are kept. *)
Theorem search_delivers_results (server : Server) (st : State) (w : World) :
  truthy (trim (requirements (searchData st))) = true ->
  searchData (fst (run (handleSearch server st) st w)) = searchData st
  /\ searching (fst (run (handleSearch server st) st w)) = false
  /\ match search server (searchData st) with
     | Resolved response =>
         error (fst (run (handleSearch server st) st w)) = empty_str
         /\ trace (snd (run (handleSearch server st) st w)) =
            trace w ++
            [ PreventDefault;
              Request (POST_search_candidates (searchData st)) (bearer w);
              Callback_onSearchResults (results response) (searchData st) ]
     | Rejected err =>
         truthy (error (fst (run (handleSearch server st) st w))) = true
         /\ snd (run (handleSearch server st) st w) =
            on_rejected err
              (emit (Request (POST_search_candidates (searchData st)) (bearer w))
                 (emit PreventDefault w))
     end.
Proof.
  intros H. unfold run, handleSearch, when, bind, perform. rewrite H. simpl.
  unfold try_catch_finally, bind, await, setSearching, setError, setState, perform, ret.
  destruct (search server (searchData st)) as [resp|err]; simpl.
  - repeat split. now rewrite <- !app_assoc.
  - repeat split. now apply detail_or_truthy.
Qed.

Lemma search_delivers_results_witness :
  searching (fst (run (handleSearch Samples.offline
                         (with_searchData
                            {| requirements := lit "Python backend engineer";
                               filters := Some []; limit := Some (Some 10%Z) |}
                            initial))
                    (with_searchData
                       {| requirements := lit "Python backend engineer";
                          filters := Some []; limit := Some (Some 10%Z) |}
                       initial)
                    Samples.fresh)) = false.
Proof.
  apply (search_delivers_results Samples.offline
           (with_searchData
              {| requirements := lit "Python backend engineer";
                 filters := Some []; limit := Some (Some 10%Z) |}
              initial)
           Samples.fresh).
  reflexivity.
Defined.

(** X13: saving a search needs a name.  When the prompt is cancelled or
    left empty, [handleSaveSearch] does nothing at all; with a name it
    sends one request, carrying that name and the search data of the
    render, says so in an alert when the request is accepted and shows an
    error when it is rejected; it does not look at the requirements. *)
Theorem save_search_needs_name (name : option jsstring) (server : Server)
  (st : State) (w : World) :
  match name with
  | None => run (handleSaveSearch name server st) st w = (st, w)
  | Some n =>
      if truthy n then
        match saveSearch server n (searchData st) with
        | Resolved _ =>
            fst (run (handleSaveSearch name server st) st w) = st
            /\ trace (snd (run (handleSaveSearch name server st) st w)) =
               trace w ++
               [ Request (POST_search_saved n (searchData st)) (bearer w);
                 Alert (lit "Search saved successfully!") ]
        | Rejected err =>
            fst (run (handleSaveSearch name server st) st w) =
              with_error (detail_or err (lit "Failed to save search")) st
            /\ snd (run (handleSaveSearch name server st) st w) =
               on_rejected err
                 (emit (Request (POST_search_saved n (searchData st)) (bearer w)) w)
        end
      else run (handleSaveSearch name server st) st w = (st, w)
  end.
Proof.
  unfold run, handleSaveSearch. destruct name as [n|]; [|reflexivity].
  unfold when, bind. destruct (truthy n); simpl; [|reflexivity].
  unfold try_catch, try_catch_finally, bind, await, setError, setState, perform, ret.
  destruct (saveSearch server n (searchData st)) as [i|err]; simpl.
  - split; [reflexivity | now rewrite <- !app_assoc].
  - now split.
Qed.

(** X14: editing the form talks to nobody: over any sequence of changes of
    requirements, filters and limit and of toggles of the advanced
    filters, the world (localStorage and trace) stays as it was and the
    form never turns to searching. *)
Theorem editing_sends_nothing (es : list event) (s : State) (w : World) :
  Forall edits es ->
  snd (steps (s, w) es) = w
  /\ searching (fst (steps (s, w) es)) = searching s.
Proof.
  intros Hes. revert s. induction Hes as [|e es He Hes IH]; intros s.
  - now split.
  - change (steps (s, w) (e :: es)) with (steps (step (s, w) e) es).
    assert (Hstep : snd (step (s, w) e) = w
                    /\ searching (fst (step (s, w) e)) = searching s)
      by (destruct e; try contradiction; split; reflexivity).
    destruct (step (s, w) e) as [s' w']. simpl in Hstep.
    destruct Hstep as [-> Hs]. destruct (IH s') as [H1 H2].
    split; [exact H1 | now rewrite H2].
Qed.

Lemma editing_sends_nothing_witness :
  snd (steps (initial, Samples.fresh)
         [ RequirementsChange (lit "Rust"); FilterChange (lit "location") (lit "Remote");
           LimitChange (lit "5"); ToggleAdvanced ]) = Samples.fresh.
Proof.
  apply (editing_sends_nothing
           [ RequirementsChange (lit "Rust"); FilterChange (lit "location") (lit "Remote");
             LimitChange (lit "5"); ToggleAdvanced ] initial Samples.fresh).
  repeat (constructor; [exact I|]). constructor.
Defined.

End SearchForm.

(* ================================================================== *)
(** * Further properties: the result list                               *)
(* ================================================================== *)

Section ResultList.
Import Js Types Api SearchResults Ranking.

(** The comparator puts [a] first exactly when [a] may stand before [b]
    under the chosen sort. *)
Lemma compareFn_in_order (by_ : sortBy_t) (order : sortOrder_t) (a b : SearchResult) :
  Qle_bool (compareFn by_ order a b) 0 = true <-> in_order by_ order a b.
Proof.
  rewrite Qle_bool_iff. unfold compareFn, in_order, sort_key.
  destruct by_, order; simpl; try (split; intros H; lra);
    unfold Qle, Qopp, inject_Z; simpl; lia.
Qed.

Lemma in_order_total (by_ : sortBy_t) (order : sortOrder_t) (a b : SearchResult) :
  in_order by_ order a b \/ in_order by_ order b a.
Proof.
  unfold in_order. destruct order;
    destruct (Qlt_le_dec (sort_key by_ a) (sort_key by_ b)) as [H|H];
    auto using Qlt_le_weak.
Qed.

Lemma in_order_trans (by_ : sortBy_t) (order : sortOrder_t) (a b c : SearchResult) :
  in_order by_ order a b -> in_order by_ order b c -> in_order by_ order a c.
Proof. unfold in_order. destruct order; intros H1 H2; lra. Qed.

Lemma compareFn_second (by_ : sortBy_t) (order : sortOrder_t) (a b : SearchResult) :
  Qle_bool (compareFn by_ order a b) 0 = false -> in_order by_ order b a.
Proof.
  intros H. destruct (in_order_total by_ order a b) as [Hab|Hba]; [|exact Hba].
  apply compareFn_in_order in Hab. congruence.
Qed.

(** X15: in each of the four sort settings the displayed list is ordered
    by the chosen key (the score, or the position of the experience level
    among entry, mid, senior, lead, with -1 for any other level) in the
    chosen direction, and results with equal keys keep the order of the
    input. *)
Theorem sorted_in_every_mode (results : list SearchResult) (st : State) :
  StronglySorted (in_order (sortBy st) (sortOrder st))
    (filteredAndSortedResults results st)
  /\ forall q,
       filter (fun r => Qeq_bool (sort_key (sortBy st) r) q)
              (filteredAndSortedResults results st)
       = filter (fun r => Qeq_bool (sort_key (sortBy st) r) q)
                (filter (keeps (minSimilarity st) (experienceFilter st)) results).
Proof.
  unfold filteredAndSortedResults. split.
  - apply Array_sort_sorted.
    + intros x y. apply compareFn_in_order.
    + apply compareFn_second.
    + apply in_order_trans.
  - intros q. apply Array_sort_stable.
    intros x y Hx Hy. apply Qeq_bool_iff in Hx, Hy.
    apply compareFn_in_order. unfold in_order. destruct (sortOrder st); lra.
Qed.

Lemma Array_sort_of_sorted {A} (compareFn : A -> A -> Q) (l : list A) :
  StronglySorted (fun x y => Qle_bool (compareFn x y) 0 = true) l ->
  Array_sort compareFn l = l.
Proof.
  induction 1 as [|x l Hl IH Hx]; simpl.
  - reflexivity.
  - rewrite IH. destruct Hx as [|y l' Hy _]; simpl; [reflexivity|].
    now rewrite Hy.
Qed.

Lemma filter_all {A} (p : A -> bool) (l : list A) :
  Forall (fun x => p x = true) l -> filter p l = l.
Proof.
  induction 1 as [|x l Hx _ IH]; simpl; [reflexivity|]. now rewrite Hx, IH.
Qed.

(** X16: filtering and sorting what is displayed changes nothing: the
    displayed list is a fixed point of [filteredAndSortedResults]. *)
Theorem displayed_list_is_stable (results : list SearchResult) (st : State) :
  filteredAndSortedResults (filteredAndSortedResults results st) st
  = filteredAndSortedResults results st.
Proof.
  unfold filteredAndSortedResults.
  set (keep := keeps (minSimilarity st) (experienceFilter st)).
  set (cmp := compareFn (sortBy st) (sortOrder st)).
  rewrite (filter_all keep (Array_sort cmp (filter keep results))).
  - apply Array_sort_of_sorted.
    apply Array_sort_sorted.
    + intros x y H; exact H.
    + intros x y H. apply compareFn_in_order. now apply compareFn_second.
    + intros x y z Hxy Hyz. apply compareFn_in_order.
      apply compareFn_in_order in Hxy, Hyz. now apply in_order_trans with y.
  - apply (Permutation_Forall (Permutation_sym (Array_sort_perm cmp _))).
    apply Forall_forall. intros r Hr. now apply filter_In in Hr.
Qed.

Lemma str_eqb_sym (a b : jsstring) : str_eqb a b = str_eqb b a.
Proof.
  destruct (str_eqb a b) eqn:E.
  - apply str_eqb_eq in E. subst. symmetry. apply str_eqb_refl.
  - apply str_eqb_neq in E. symmetry. apply str_eqb_neq. congruence.
Qed.

(** X17: the label of an experience level and its place in the sort
    agree: entry, mid, senior and lead are ranked 0 to 3 and labelled with
    their names, and every other level, the empty and the missing one
    included, is ranked -1 and labelled as not specified. *)
Theorem experience_label_matches_rank (level : option jsstring) :
  let rank := indexOf experienceLevels (opt_or_else level empty_str) in
  (rank = 0 /\ level = Some (lit "entry")
     /\ getExperienceLabel level = lit "Entry Level")%Z
  \/ (rank = 1 /\ level = Some (lit "mid")
        /\ getExperienceLabel level = lit "Mid Level")%Z
  \/ (rank = 2 /\ level = Some (lit "senior")
        /\ getExperienceLabel level = lit "Senior Level")%Z
  \/ (rank = 3 /\ level = Some (lit "lead")
        /\ getExperienceLabel level = lit "Lead/Principal")%Z
  \/ (rank = -1 /\ getExperienceLabel level = lit "Not specified")%Z.
Proof.
  destruct level as [l|]; [|do 4 right; split; reflexivity].
  destruct l as [|c l]; [do 4 right; split; reflexivity|].
  set (s := c :: l). simpl opt_or_else. unfold or_else. simpl truthy. cbv iota.
  unfold getExperienceLabel, indexOf, experienceLevels, indexOf_from.
  rewrite (str_eqb_sym (lit "entry") s), (str_eqb_sym (lit "mid") s),
    (str_eqb_sym (lit "senior") s), (str_eqb_sym (lit "lead") s).
  destruct (str_eqb s (lit "entry")) eqn:E1.
  { apply str_eqb_eq in E1. left. rewrite E1. repeat split. }
  destruct (str_eqb s (lit "mid")) eqn:E2.
  { apply str_eqb_eq in E2. right; left. rewrite E2. repeat split. }
  destruct (str_eqb s (lit "senior")) eqn:E3.
  { apply str_eqb_eq in E3. do 2 right; left. rewrite E3. repeat split. }
  destruct (str_eqb s (lit "lead")) eqn:E4.
  { apply str_eqb_eq in E4. do 3 right; left. rewrite E4. repeat split. }
  do 4 right. split; reflexivity.
Qed.

(** Rounding to a whole number keeps the order. *)
Lemma Math_round_number_mono (a b : number) :
  Ranking.number_le a b ->
  Ranking.number_le (Math_round_number a) (Math_round_number b).
Proof.
  destruct a as [x| |], b as [y| |]; simpl; trivial.
  intros H. rewrite <- Zle_Qle. unfold Math_round.
  apply Qfloor_resp_le. lra.
Qed.

(** The percentages shown for the three thresholds of the colour classes,
    the doubles 0.8, 0.6 and 0.4. *)
Lemma formatScore_thresholds :
  formatScore (nearest (8 # 10)) = Finite (inject_Z 80)
  /\ formatScore (nearest (6 # 10)) = Finite (inject_Z 60)
  /\ formatScore (nearest (4 # 10)) = Finite (inject_Z 40).
Proof. repeat split; vm_compute; reflexivity. Qed.

(** X18: the colour class of a score and the percentage shown with it
    agree: excellent goes with 80 % or more, good with 60 to 80 %, fair
    with 40 to 60 %, poor with 40 % or less.  The thresholds of the
    classes are the doubles 0.8, 0.6 and 0.4, the percentage is the
    rounded double product [score * 100]. *)
Theorem score_label_matches_percent (score : Q) :
  (getScoreColor score = lit "excellent"
   /\ Ranking.number_le (Finite (inject_Z 80)) (formatScore score))
  \/ (getScoreColor score = lit "good"
      /\ Ranking.number_le (Finite (inject_Z 60)) (formatScore score)
      /\ Ranking.number_le (formatScore score) (Finite (inject_Z 80)))
  \/ (getScoreColor score = lit "fair"
      /\ Ranking.number_le (Finite (inject_Z 40)) (formatScore score)
      /\ Ranking.number_le (formatScore score) (Finite (inject_Z 60)))
  \/ (getScoreColor score = lit "poor"
      /\ Ranking.number_le (formatScore score) (Finite (inject_Z 40))).
Proof.
  destruct formatScore_thresholds as [T8 [T6 T4]].
  assert (Up : forall t, t <= score ->
             Ranking.number_le (formatScore t) (formatScore score)).
  { intros t H. unfold formatScore, js_mul.
    apply Math_round_number_mono, to_double_mono. lra. }
  assert (Down : forall t, Qle_bool t score = false ->
             Ranking.number_le (formatScore score) (formatScore t)).
  { intros t E. unfold formatScore, js_mul.
    apply Math_round_number_mono, to_double_mono.
    destruct (Qlt_le_dec score t) as [H|H]; [lra|].
    apply Qle_bool_iff in H. congruence. }
  unfold getScoreColor.
  destruct (Qle_bool (nearest (8 # 10)) score) eqn:E8.
  { left. split; [reflexivity|]. rewrite <- T8.
    apply Up. now apply Qle_bool_iff. }
  apply Down in E8. rewrite T8 in E8.
  destruct (Qle_bool (nearest (6 # 10)) score) eqn:E6.
  { right; left. split; [reflexivity|]. split; [|exact E8].
    rewrite <- T6. apply Up. now apply Qle_bool_iff. }
  apply Down in E6. rewrite T6 in E6.
  destruct (Qle_bool (nearest (4 # 10)) score) eqn:E4.
  { do 2 right; left. split; [reflexivity|]. split; [|exact E6].
    rewrite <- T4. apply Up. now apply Qle_bool_iff. }
  apply Down in E4. rewrite T4 in E4.
  do 3 right. split; [reflexivity | exact E4].
Qed.

(** X19: a higher score is never shown as a lower percentage. *)
Theorem formatScore_monotone (s t : Q) :
  s <= t -> Ranking.number_le (formatScore s) (formatScore t).
Proof.
  intros H. unfold formatScore, js_mul.
  apply Math_round_number_mono, to_double_mono. lra.
Qed.

(** The doubles 0.57 and 0.58: the products with 100 are rounded to
    56.99999999999999 and 57.99999999999999, shown as 57 and 58. *)
Lemma formatScore_monotone_witness :
  Ranking.number_le (formatScore (nearest (57 # 100)))
    (formatScore (nearest (58 # 100))).
Proof.
  apply (formatScore_monotone (nearest (57 # 100)) (nearest (58 # 100))).
  apply Qle_bool_iff. vm_compute. reflexivity.
Defined.

(** A score of 0.875 is within [0, 1]. *)
Lemma formatScore_percent_witness :
  exists n : Z,
    formatScore (7 # 8) = Finite (inject_Z n) /\ (0 <= n <= 100)%Z.
Proof.
  apply (formatScore_percent (7 # 8)); apply Qle_bool_iff; reflexivity.
Defined.

(** X21: viewing details.  [handleViewDetails] sends one request, for the
    CV of the result's candidate, and leaves the modal open for that
    candidate and not loading, with either the text of the answer and no
    error, or no text and an error that is not empty; the sort and the
    filters are not touched. *)
Theorem view_details_outcome (server : Server) (result : SearchResult)
  (s : State) (w : World) :
  let s' := fst (run (handleViewDetails server result) s w) in
  isOpen (cvModal s') = true
  /\ candidateId (cvModal s') = candidate_id result
  /\ loading (cvModal s') = false
  /\ match getCandidateCV server (candidate_id result) with
     | Resolved response =>
         cvContent (cvModal s') = cv_content response
         /\ error (cvModal s') = empty_str
     | Rejected err =>
         cvContent (cvModal s') = empty_str
         /\ truthy (error (cvModal s')) = true
     end
  /\ (sortBy s', sortOrder s', minSimilarity s', experienceFilter s')
     = (sortBy s, sortOrder s, minSimilarity s, experienceFilter s)
  /\ requests (snd (run (handleViewDetails server result) s w))
     = requests w ++ [GET_search_candidates_cv (candidate_id result)].
Proof.
  unfold run, handleViewDetails, try_catch, try_catch_finally, bind, await,
    setCvModal, setState, ret.
  destruct (getCandidateCV server (candidate_id result)) as [resp|err]; simpl.
  - repeat split. now rewrite requests_emit.
  - repeat split.
    + now apply detail_or_truthy.
    + now rewrite requests_on_rejected, requests_emit.
Qed.

End ResultList.

(* ================================================================== *)
(** * Further properties: the dashboards and the router                 *)
(* ================================================================== *)

Section CandidateDashboardFacts.
Import Js Types Api.

(** X22: the colour and the text of the CV status go together: completed
    is green, processing orange and failed red, each with its own text, and
    every other status, pending and none included, is gray with the text
    of a CV that was not uploaded. *)
Theorem status_color_matches_text (status : jsstring) :
  (status = lit "completed"
     /\ CandidateDashboard.getStatusColor status = lit "green"
     /\ CandidateDashboard.getStatusText status = lit "CV Processed Successfully")
  \/ (status = lit "processing"
        /\ CandidateDashboard.getStatusColor status = lit "orange"
        /\ CandidateDashboard.getStatusText status = lit "Processing CV...")
  \/ (status = lit "failed"
        /\ CandidateDashboard.getStatusColor status = lit "red"
        /\ CandidateDashboard.getStatusText status = lit "Processing Failed")
  \/ (~ In status [lit "completed"; lit "processing"; lit "failed"]
        /\ CandidateDashboard.getStatusColor status = lit "gray"
        /\ CandidateDashboard.getStatusText status = lit "No CV Uploaded").
Proof.
  unfold CandidateDashboard.getStatusColor, CandidateDashboard.getStatusText.
  destruct (str_eqb status (lit "completed")) eqn:E1.
  { apply str_eqb_eq in E1. left. now repeat split. }
  destruct (str_eqb status (lit "processing")) eqn:E2.
  { apply str_eqb_eq in E2. right; left. now repeat split. }
  destruct (str_eqb status (lit "failed")) eqn:E3.
  { apply str_eqb_eq in E3. do 2 right; left. now repeat split. }
  do 3 right. apply str_eqb_neq in E1, E2, E3.
  split; [|now split].
  intros [H|[H|[H|[]]]]; congruence.
Qed.

(** X23: the account is left only when it is gone.  When the deletion is
    rejected, [handleDeleteProfile] does not call [logout], whatever
    [logout] would do: it shows an error that is not empty, closes the
    confirmation and is no longer deleting.  When the deletion is accepted,
    the handler ends with what [logout] does, still marked as deleting. *)
Theorem delete_profile_logs_out_on_success
  (logout : M CandidateDashboard.State unit) (s : CandidateDashboard.State) (w : World) :
  (forall err,
     run (CandidateDashboard.handleDeleteProfile (Rejected err) logout) s w =
     ({| CandidateDashboard.profile := CandidateDashboard.profile s;
         CandidateDashboard.loading := CandidateDashboard.loading s;
         CandidateDashboard.error := detail_or err (lit "Failed to delete profile");
         CandidateDashboard.showDeleteConfirm := false;
         CandidateDashboard.deleting := false |},
      on_rejected err (emit (Request DELETE_profile_me (bearer w)) w))
     /\ truthy (detail_or err (lit "Failed to delete profile")) = true)
  /\ (forall message s' w',
        logout (CandidateDashboard.with_deleting true s)
               (emit (Request DELETE_profile_me (bearer w)) w) = (Normal tt, s', w') ->
        run (CandidateDashboard.handleDeleteProfile (Resolved message) logout) s w
        = (s', w')).
Proof.
  split.
  - intros err. split; [reflexivity|]. now apply detail_or_truthy.
  - intros message s' w' Hlogout.
    unfold run, CandidateDashboard.handleDeleteProfile, try_catch, try_catch_finally,
      bind, await, CandidateDashboard.setDeleting, setState, ret.
    cbv beta iota. now rewrite Hlogout.
Qed.

Lemma delete_profile_logs_out_on_success_witness :
  run (CandidateDashboard.handleDeleteProfile (Resolved (lit "deleted"))
         (perform (Redirect (lit "/"))))
      CandidateDashboard.initial Samples.fresh
  = (CandidateDashboard.with_deleting true CandidateDashboard.initial,
     emit (Redirect (lit "/"))
       (emit (Request DELETE_profile_me None) Samples.fresh)).
Proof.
  apply (proj2 (delete_profile_logs_out_on_success
                  (perform (Redirect (lit "/")))
                  CandidateDashboard.initial Samples.fresh)).
  reflexivity.
Defined.

(** X24: loading a profile always ends the loading state of a dashboard;
    an answer becomes the profile and leaves the error alone, a rejection
    leaves the profile alone and shows an error that is not empty.  This
    holds for the candidate's and for the recruiter's dashboard. *)
Theorem load_profile_settles
  (c : CandidateDashboard.State) (r : RecruiterDashboard.State) (w : World)
  (ca : api_result Candidate) (ra : api_result Recruiter) :
  let c' := fst (run (CandidateDashboard.loadProfile ca) c w) in
  let r' := fst (run (RecruiterDashboard.loadProfile ra) r w) in
  CandidateDashboard.loading c' = false
  /\ RecruiterDashboard.loading r' = false
  /\ match ca with
     | Resolved p => CandidateDashboard.profile c' = Some p
                     /\ CandidateDashboard.error c' = CandidateDashboard.error c
     | Rejected err => CandidateDashboard.profile c' = CandidateDashboard.profile c
                       /\ truthy (CandidateDashboard.error c') = true
     end
  /\ match ra with
     | Resolved p => RecruiterDashboard.profile r' = Some p
                     /\ RecruiterDashboard.error r' = RecruiterDashboard.error r
     | Rejected err => RecruiterDashboard.profile r' = RecruiterDashboard.profile r
                       /\ truthy (RecruiterDashboard.error r') = true
     end
  /\ requests (snd (run (CandidateDashboard.loadProfile ca) c w))
     = requests w ++ [GET_profile_me]
  /\ requests (snd (run (RecruiterDashboard.loadProfile ra) r w))
     = requests w ++ [GET_profile_recruiter_me].
Proof.
  unfold run, CandidateDashboard.loadProfile, RecruiterDashboard.loadProfile,
    try_catch_finally, bind, await, setState, ret,
    CandidateDashboard.setProfile, CandidateDashboard.setError,
    CandidateDashboard.setLoading, RecruiterDashboard.setProfile,
    RecruiterDashboard.setError, RecruiterDashboard.setLoading.
  destruct ca as [cp|cerr], ra as [rp|rerr]; simpl;
    repeat split;
    try (now apply detail_or_truthy);
    rewrite ?requests_on_rejected, requests_emit; reflexivity.
Qed.

End CandidateDashboardFacts.

Section RecruiterDashboardFacts.
Import Js Types Api RecruiterDashboard.

Ltac written_out :=
  unfold requests, emit; simpl; rewrite ?flat_map_app; simpl;
  rewrite ?app_nil_r, <- ?app_assoc; reflexivity.

(** X25: running a saved search.  [handleRunSavedSearch] sends the saved
    criteria as they are, without looking at the requirements, and always
    ends not loading; an answer replaces the results and opens the results
    tab; a rejection keeps results and tab and shows an error that is not
    empty.  In neither case are the criteria remembered as the last
    search. *)
Theorem run_saved_search (server : Server) (criteria : SearchRequest)
  (s : State) (w : World) :
  let s' := fst (run (handleRunSavedSearch server criteria) s w) in
  requests (snd (run (handleRunSavedSearch server criteria) s w))
    = requests w ++ [POST_search_candidates criteria]
  /\ searchLoading s' = false
  /\ lastSearchCriteria s' = lastSearchCriteria s
  /\ match search server criteria with
     | Resolved response =>
         searchResults s' = results response
         /\ activeTab s' = results_tab
         /\ error s' = empty_str
     | Rejected err =>
         searchResults s' = searchResults s
         /\ activeTab s' = activeTab s
         /\ truthy (error s') = true
     end.
Proof.
  unfold run, handleRunSavedSearch, try_catch_finally, bind, await,
    setSearchLoading, setError, setSearchResults, setActiveTab, setState, ret.
  destruct (search server criteria) as [resp|err]; simpl.
  - repeat split. now rewrite requests_emit.
  - repeat split.
    + now rewrite requests_on_rejected, requests_emit.
    + now apply detail_or_truthy.
Qed.

(** X26: saving the current search saves what was searched.  Once the
    search form has delivered results with its criteria, the dashboard
    shows the results tab with them, and [handleSaveCurrentSearch] with a
    name sends exactly those criteria under that name; results delivered
    without criteria keep the criteria remembered before; and with no
    search remembered, or without a name, nothing is sent and nothing
    changes. *)
Theorem save_current_search_uses_last_criteria
  (server : Server) (reloaded : api_result (option (list SavedSearch)))
  (found : list SearchResult) (criteria : SearchRequest) (name : jsstring)
  (s : State) (w : World) :
  let s1 := fst (run (handleSearchResults found (Some criteria)) s w) in
  searchResults s1 = found
  /\ activeTab s1 = results_tab
  /\ lastSearchCriteria s1 = Some criteria
  /\ lastSearchCriteria (fst (run (handleSearchResults found None) s w))
     = lastSearchCriteria s
  /\ snd (run (handleSearchResults found (Some criteria)) s w) = w
  /\ (truthy name = true ->
      exists rest,
        requests (snd (run (handleSaveCurrentSearch (Some name) server reloaded s1) s1 w))
        = requests w ++ POST_search_saved name criteria :: rest)
  /\ (lastSearchCriteria s = None ->
      run (handleSaveCurrentSearch (Some name) server reloaded s) s w = (s, w))
  /\ run (handleSaveCurrentSearch None server reloaded s) s w = (s, w)
  /\ run (handleSaveCurrentSearch (Some empty_str) server reloaded s) s w = (s, w).
Proof.
  simpl. repeat split.
  - intros Hname. unfold run, handleSaveCurrentSearch. simpl.
    unfold when, bind. rewrite Hname. simpl.
    unfold try_catch, try_catch_finally, bind, await, loadSavedSearches, try_catch,
      try_catch_finally, bind, await, perform, setError, setSavedSearches,
      setState, ret.
    destruct (saveSearch server name criteria) as [i|err]; simpl.
    + destruct reloaded as [l|err]; simpl.
      * exists [GET_search_saved]. written_out.
      * exists [GET_search_saved]. rewrite requests_emit, requests_on_rejected.
        written_out.
    + exists []. rewrite requests_on_rejected. written_out.
  - intros Hnone. unfold run, handleSaveCurrentSearch. now rewrite Hnone.
  - unfold run, handleSaveCurrentSearch. now destruct (lastSearchCriteria s).
  - unfold run, handleSaveCurrentSearch. now destruct (lastSearchCriteria s).
Qed.

Lemma save_current_search_uses_last_criteria_witness :
  exists rest,
    requests
      (snd (run (handleSaveCurrentSearch (Some (lit "mine")) Samples.offline
                   (Rejected Samples.unreachable)
                   (fst (run (handleSearchResults []
                                (Some (SearchInterface.searchData
                                         SearchInterface.initial)))
                           initial Samples.fresh)))
              (fst (run (handleSearchResults []
                           (Some (SearchInterface.searchData SearchInterface.initial)))
                      initial Samples.fresh))
              Samples.fresh))
    = POST_search_saved (lit "mine")
        (SearchInterface.searchData SearchInterface.initial) :: rest.
Proof.
  destruct (save_current_search_uses_last_criteria Samples.offline
              (Rejected Samples.unreachable) []
              (SearchInterface.searchData SearchInterface.initial) (lit "mine")
              initial Samples.fresh) as [_ [_ [_ [_ [_ [H _]]]]]].
  apply H. reflexivity.
Defined.

(** X27: saved searches are optional.  When they cannot be loaded the
    list becomes empty and no error is shown; an answer without a list
    gives the empty list as well; an answer with a list gives that list. *)
Theorem saved_searches_fail_silently
  (answer : api_result (option (list SavedSearch))) (s : State) (w : World) :
  let s' := fst (run (loadSavedSearches answer) s w) in
  error s' = error s
  /\ savedSearches s' = match answer with
                        | Resolved (Some l) => l
                        | _ => []
                        end
  /\ requests (snd (run (loadSavedSearches answer) s w)) = requests w ++ [GET_search_saved].
Proof.
  unfold run, loadSavedSearches, try_catch, try_catch_finally, bind, await,
    perform, setSavedSearches, setState, ret.
  destruct answer as [[l|]|err]; simpl; repeat split;
    rewrite ?requests_emit, ?requests_on_rejected, ?requests_emit; simpl;
    now rewrite ?app_nil_r.
Qed.

(** X28: the preview of a saved search is the requirements when they have
    at most 100 code units, and their first 100 followed by three dots
    otherwise; it never has more than 103. *)
Theorem search_preview_bounded (saved : SavedSearch) :
  (List.length (search_preview saved) <= 103)%nat
  /\ ((List.length (requirements (criteria saved)) <= 100)%nat ->
      search_preview saved = requirements (criteria saved))
  /\ ((100 < List.length (requirements (criteria saved)))%nat ->
      search_preview saved = firstn 100 (requirements (criteria saved)) ++ lit "..."
      /\ List.length (search_preview saved) = 103%nat).
Proof.
  unfold search_preview.
  set (req := requirements (criteria saved)).
  destruct (100 <? List.length req)%nat eqn:E.
  - apply Nat.ltb_lt in E.
    assert (L : List.length (firstn 100 req ++ lit "...") = 103%nat).
    { rewrite length_app, length_firstn.
      change (List.length (lit "...")) with 3%nat. lia. }
    split; [lia|]. split; [lia|]. intros _. now split.
  - apply Nat.ltb_ge in E. unfold empty_str. rewrite app_nil_r.
    split; [rewrite length_firstn; lia|]. split; [|lia].
    intros _. now apply firstn_all2.
Qed.

Lemma search_preview_bounded_witness :
  search_preview {| id := lit "s-1"; name := lit "mine";
                    criteria := {| requirements := lit "Python backend engineer";
                                   filters := None; limit := None |} |}
  = lit "Python backend engineer".
Proof.
  destruct (search_preview_bounded
              {| id := lit "s-1"; name := lit "mine";
                 criteria := {| requirements := lit "Python backend engineer";
                                filters := None; limit := None |} |})
    as [_ [H _]].
  apply H. simpl. lia.
Defined.

End RecruiterDashboardFacts.

Section RouterFacts.
Import Js Types Router.

(** X29: who sees what.  A dashboard is rendered exactly for a signed-in
    user once loading is over, the candidate's for a candidate and the
    recruiter's for a recruiter; while loading only the loading view is
    rendered; in every other case the router renders the form chosen by
    the selected user type and mode. *)
Theorem router_views (auth : Auth) (st : State) :
  (render auth st = LoadingView <-> loading auth = true)
  /\ (render auth st = CandidateDashboardView <->
      loading auth = false /\ isAuthenticated auth = true
      /\ exists u, user auth = Some u /\ role u = candidate)
  /\ (render auth st = RecruiterDashboardView <->
      loading auth = false /\ isAuthenticated auth = true
      /\ exists u, user auth = Some u /\ role u = recruiter)
  /\ (loading auth = false ->
      (isAuthenticated auth = false \/ user auth = None) ->
      render auth st = auth_forms st).
Proof.
  unfold render, auth_forms.
  destruct (loading auth), (isAuthenticated auth), (user auth) as [[i e [] c l a]|],
    (selectedUserType st), (authMode st); simpl;
    repeat split; try discriminate; try reflexivity; try tauto;
    try (intros; eexists; split; reflexivity);
    try (intros [? [? [u [Hu Hr]]]]; try discriminate;
         injection Hu as <-; simpl in Hr; discriminate);
    try (intros _ [H|H]; discriminate H);
    try (intros [? [? [u [Hu Hr]]]]; discriminate).
Qed.

Lemma router_views_witness :
  render {| user := None; isAuthenticated := false; loading := false |} initial
  = CandidateLoginView.
Proof.
  destruct (router_views {| user := None; isAuthenticated := false; loading := false |}
              initial) as [_ [_ [_ H]]].
  apply H; [reflexivity | now left].
Defined.

End RouterFacts.
